(** * ble_temp_sensor: the sampler task and the advertising life cycle

    A shallow embedding of [apps/ble_temp_sensor/src/main.c].  The program
    talks to three collaborators that are not part of the file: the NimBLE
    host, the Mynewt scheduler and the temperature driver.  Every call that
    crosses that boundary is recorded, in order, in an interaction trace;
    what the collaborator answers is a parameter of the development. *)

From Stdlib Require Import ZArith List String Bool Lia.
From stdpp Require Import base list strings functions.
Import ListNotations.

Local Open Scope Z_scope.

(** ** C values *)

(** Functions whose address the program hands to a collaborator. *)
Inductive fn :=
| fn_ble_temp_gap_event
| fn_on_sync
| fn_gatt_svr_register_cb
| fn_task1_handler
| fn_log_console_handler.

(** A scalar, a pointer to a static string, or a function pointer.  The
    null pointer is the integer zero. *)
Inductive cval :=
| CInt (z : Z)
| CStr (s : string)
| CFun (f : fn).

Definition NULL : cval := CInt 0.

(** The structures [ble_hs_adv_fields] and [ble_gap_adv_params] are declared
    in the host's headers; main.c only clears them and assigns members by
    name.  A structure is therefore a valuation of its member names; a
    member holds the value assigned to it as it stands, the width of each
    member being part of the absent declaration. *)
Definition cstruct := string -> cval.

(** [memset(&s, 0, sizeof(s))] *)
Definition memset0 : cstruct := fun _ => CInt 0.

(** [s.m = v] *)
Definition assign (m : string) (v : cval) (s : cstruct) : cstruct :=
  fn_insert m v s.

(** Conversion to [int16_t] and the increment of a [uint8_t]. *)
Definition int16 (z : Z) : Z := (z + 32768) mod 65536 - 32768.
Definition uint8 (z : Z) : Z := z mod 256.

(** ** GAP events *)

(** [struct ble_gap_event]: a type tag and a union; only the members that
    main.c reads are kept.  [BLE_GAP_EVENT_other] stands for every tag that
    has no [case] label in the handler. *)
Inductive ble_gap_event :=
| BLE_GAP_EVENT_CONNECT (status : Z)
| BLE_GAP_EVENT_DISCONNECT (reason : Z)
| BLE_GAP_EVENT_ADV_COMPLETE
| BLE_GAP_EVENT_MTU (conn_handle : Z) (value : Z)
| BLE_GAP_EVENT_other (type : Z).

(** ** The interaction trace *)

Inductive log_level := INFO | ERROR.

Inductive log_arg :=
| ArgInt (z : Z)
| ArgStr (s : string).

(** Calls that leave main.c, with their arguments. *)
Inductive ext_call :=
| ble_gap_adv_set_fields (fields : cstruct)
| ble_gap_adv_start (own_addr_type : Z) (direct_addr : cval) (duration_ms : Z)
                    (adv_params : cstruct) (cb : cval) (cb_arg : cval)
| ble_hs_id_infer_auto (privacy : Z)
| get_temp_measurement
| os_time_delay (ticks : Z)
| sysinit
| log_register (name : string) (handler : cval) (arg : cval) (level : Z)
| nrf_temp_init
| gatt_svr_init
| ble_svc_gap_device_name_set (name : string)
| os_task_init (name : string) (entry : cval) (arg : cval) (prio : Z)
               (sanity_itvl : Z) (stack_size : Z).

(** What can be observed at the boundary of main.c: a line handed to the
    logger (the format string as it is spelled in the source, and its
    arguments), a call into a collaborator with the value it returned, and
    the host invoking the GAP callback with an event. *)
Inductive Action :=
| Log (lvl : log_level) (fmt : string) (args : list log_arg)
| Ext (c : ext_call) (ret : Z)
| Deliver (ev : ble_gap_event).

(** ** Collaborators *)

(** The constants of the host and kernel headers, the kernel's pure
    millisecond-to-tick conversion, and the answers of the collaborators.
    An answer may depend on everything that happened before the call. *)
Class Platform := {
  BLE_HS_ADV_F_DISC_GEN : Z;
  BLE_HS_ADV_F_BREDR_UNSUP : Z;
  BLE_HS_ADV_TX_PWR_LVL_AUTO : Z;
  BLE_GAP_CONN_MODE_UND : Z;
  BLE_GAP_DISC_MODE_GEN : Z;
  BLE_HS_FOREVER : Z;
  OS_WAIT_FOREVER : Z;
  LOG_SYSLEVEL : Z;
  (** the tick count [os_time_ms_to_ticks] stores through its second
      argument *)
  os_time_ms_to_ticks : Z -> Z;
  (** the value an external call returns, given the history *)
  ext_ret : list Action -> ext_call -> Z;
  (** the address type [ble_hs_id_infer_auto] stores through its second
      argument, given the history *)
  inferred_addr_type : list Action -> Z
}.

(** ** Program state *)

Record World := mkWorld {
  (** [static uint8_t ble_temp_addr_type] *)
  ble_temp_addr_type : Z;
  (** [static int16_t temperature_readings[10]] of [task1_handler] *)
  temperature_readings : list Z;
  (** [static uint8_t temperature_readings_index] of [task1_handler] *)
  temperature_readings_index : Z;
  (** [ble_hs_cfg.sync_cb] and [ble_hs_cfg.gatts_register_cb] *)
  ble_hs_cfg_sync_cb : cval;
  ble_hs_cfg_gatts_register_cb : cval;
  trace : list Action
}.

Definition TEMPERATURE_PERIOD : Z := 100.
Definition TASK1_TASK_PRI : Z := 1.
Definition TASK1_STACK_SIZE : Z := 64.
Definition TEMPERATURE_READINGS_BUFFER_SIZE : Z := 10.
Definition device_name : string := "Andrew_temp_sensor".

(** Static storage is zero-initialised. *)
Definition initial_world : World :=
  {| ble_temp_addr_type := 0;
     temperature_readings := replicate 10 0;
     temperature_readings_index := 0;
     ble_hs_cfg_sync_cb := NULL;
     ble_hs_cfg_gatts_register_cb := NULL;
     trace := [] |}.

Definition with_trace (t : list Action) (w : World) : World :=
  {| ble_temp_addr_type := ble_temp_addr_type w;
     temperature_readings := temperature_readings w;
     temperature_readings_index := temperature_readings_index w;
     ble_hs_cfg_sync_cb := ble_hs_cfg_sync_cb w;
     ble_hs_cfg_gatts_register_cb := ble_hs_cfg_gatts_register_cb w;
     trace := t |}.

Definition with_addr_type (a : Z) (w : World) : World :=
  {| ble_temp_addr_type := a;
     temperature_readings := temperature_readings w;
     temperature_readings_index := temperature_readings_index w;
     ble_hs_cfg_sync_cb := ble_hs_cfg_sync_cb w;
     ble_hs_cfg_gatts_register_cb := ble_hs_cfg_gatts_register_cb w;
     trace := trace w |}.

Definition with_readings (r : list Z) (w : World) : World :=
  {| ble_temp_addr_type := ble_temp_addr_type w;
     temperature_readings := r;
     temperature_readings_index := temperature_readings_index w;
     ble_hs_cfg_sync_cb := ble_hs_cfg_sync_cb w;
     ble_hs_cfg_gatts_register_cb := ble_hs_cfg_gatts_register_cb w;
     trace := trace w |}.

Definition with_index (i : Z) (w : World) : World :=
  {| ble_temp_addr_type := ble_temp_addr_type w;
     temperature_readings := temperature_readings w;
     temperature_readings_index := i;
     ble_hs_cfg_sync_cb := ble_hs_cfg_sync_cb w;
     ble_hs_cfg_gatts_register_cb := ble_hs_cfg_gatts_register_cb w;
     trace := trace w |}.

Definition with_cfg (s g : cval) (w : World) : World :=
  {| ble_temp_addr_type := ble_temp_addr_type w;
     temperature_readings := temperature_readings w;
     temperature_readings_index := temperature_readings_index w;
     ble_hs_cfg_sync_cb := s;
     ble_hs_cfg_gatts_register_cb := g;
     trace := trace w |}.

(** ** A state monad with faults *)

(** A failed [assert] stops the program; an access outside an array has no
    defined behaviour.  Both end the computation and keep the world as it
    was at that point. *)
Inductive fault := AssertFailed | OutOfBounds.

Inductive outcome (A : Type) :=
| Ok (a : A) (w : World)
| Halt (f : fault) (w : World).
Arguments Ok {A} a w.
Arguments Halt {A} f w.

Definition M (A : Type) := World -> outcome A.

#[global] Instance M_ret : MRet M := fun A a w => Ok a w.

#[global] Instance M_bind : MBind M := fun A B k m w =>
  match m w with
  | Ok a w' => k a w'
  | Halt f w' => Halt f w'
  end.

Definition world_of {A} (o : outcome A) : World :=
  match o with Ok _ w => w | Halt _ w => w end.

Definition emit (a : Action) : M unit :=
  fun w => Ok tt (with_trace (trace w ++ [a]) w).

Definition LOG (lvl : log_level) (fmt : string) (args : list log_arg) : M unit :=
  emit (Log lvl fmt args).

Definition assert (b : bool) : M unit :=
  fun w => if b then Ok tt w else Halt AssertFailed w.

Section Program.
Context `{Platform}.

(** An external call: the collaborator answers from the history, and the
    call and its answer join the trace. *)
Definition call (c : ext_call) : M Z :=
  fun w => let r := ext_ret (trace w) c in
           Ok r (with_trace (trace w ++ [Ext c r]) w).

(** ** The sampler task *)

Definition get_index : M Z := fun w => Ok (temperature_readings_index w) w.
Definition set_index (i : Z) : M unit := fun w => Ok tt (with_index i w).

(** [temperature_readings[i] = v] *)
Definition store_reading (i v : Z) : M unit :=
  fun w => if (0 <=? i) && (i <? TEMPERATURE_READINGS_BUFFER_SIZE)
           then Ok tt (with_readings
                         (<[Z.to_nat i := v]> (temperature_readings w)) w)
           else Halt OutOfBounds w.

(** [temperature_readings[i]] *)
Definition load_reading (i : Z) : M Z :=
  fun w => if (0 <=? i) && (i <? TEMPERATURE_READINGS_BUFFER_SIZE)
           then match temperature_readings w !! Z.to_nat i with
                | Some v => Ok v w
                | None => Halt OutOfBounds w
                end
           else Halt OutOfBounds w.

(** [for (uint8_t i = 0; i < 10; i++) LOG(INFO, "%x", readings[i]);]
    The loop is entered with [i = 0] and ten iterations to do; [todo] counts
    the iterations that are left when the counter is [i]. *)
Fixpoint log_readings (todo : nat) (i : Z) : M unit :=
  match todo with
  | O => mret tt
  | S todo' =>
      v ← load_reading i;
      LOG INFO "%x" [ArgInt v];;
      log_readings todo' (uint8 (i + 1))
  end.

(** One pass through the body of [while (1)] in [task1_handler].  The
    status that [os_time_ms_to_ticks] returns is dropped by the source;
    only the tick count it stores is used. *)
Definition task1_iteration : M unit :=
  sample ← call get_temp_measurement;
  i ← get_index;
  store_reading i (int16 sample);;
  set_index (uint8 (i + 1));;
  i ← get_index;
  (if TEMPERATURE_READINGS_BUFFER_SIZE =? i
   then LOG INFO "buffer full\n" [];;
        log_readings (Z.to_nat TEMPERATURE_READINGS_BUFFER_SIZE) 0;;
        set_index 0
   else mret tt);;
  call (os_time_delay (os_time_ms_to_ticks TEMPERATURE_PERIOD));;
  mret tt.

(** The loop of [task1_handler] never exits; [task1_handler n] is the task
    up to the end of its [n]-th iteration. *)
Fixpoint task1_handler (n : nat) : M unit :=
  match n with
  | O => mret tt
  | S n' => task1_handler n';; task1_iteration
  end.

(** ** Advertising *)

Definition get_addr_type : M Z := fun w => Ok (ble_temp_addr_type w) w.

(** The local [fields] of [ble_temp_advertise] when it is handed to the
    host: cleared, then assigned member by member in source order. *)
Definition advertisement_fields : cstruct :=
  let fields := memset0 in
  let fields := assign "flags"
                  (CInt (Z.lor BLE_HS_ADV_F_DISC_GEN BLE_HS_ADV_F_BREDR_UNSUP))
                  fields in
  let fields := assign "tx_pwr_lvl_is_present" (CInt 1) fields in
  let fields := assign "tx_pwr_lvl" (CInt BLE_HS_ADV_TX_PWR_LVL_AUTO) fields in
  let fields := assign "name" (CStr device_name) fields in
  let fields := assign "name_len"
                  (CInt (Z.of_nat (String.length device_name))) fields in
  assign "name_is_complete" (CInt 1) fields.

(** The local [adv_params] when advertising is started. *)
Definition advertisement_params : cstruct :=
  let adv_params := memset0 in
  let adv_params := assign "conn_mode" (CInt BLE_GAP_CONN_MODE_UND) adv_params in
  assign "disc_mode" (CInt BLE_GAP_DISC_MODE_GEN) adv_params.

Definition ble_temp_advertise : M unit :=
  rc ← call (ble_gap_adv_set_fields advertisement_fields);
  if negb (rc =? 0) then
    LOG ERROR "error setting advertisement data; rc=%d\n" [ArgInt rc]
  else
    own_addr_type ← get_addr_type;
    rc ← call (ble_gap_adv_start own_addr_type NULL BLE_HS_FOREVER
                 advertisement_params (CFun fn_ble_temp_gap_event) NULL);
    if negb (rc =? 0) then
      LOG ERROR "error enabling advertisement; rc=%d\n" [ArgInt rc]
    else
      mret tt.

Definition ble_temp_gap_event (event : ble_gap_event) : M Z :=
  match event with
  | BLE_GAP_EVENT_CONNECT status =>
      LOG INFO "connection %s; status=%d\n"
          [ArgStr (if status =? 0 then "established" else "failed");
           ArgInt status];;
      if negb (status =? 0) then ble_temp_advertise else mret tt
  | BLE_GAP_EVENT_DISCONNECT reason =>
      LOG INFO "disconnect; reason=%d\n" [ArgInt reason];;
      ble_temp_advertise
  | BLE_GAP_EVENT_ADV_COMPLETE =>
      LOG INFO "adv complete\n" [];;
      ble_temp_advertise
  | BLE_GAP_EVENT_MTU conn_handle value =>
      LOG INFO "mtu update event; conn_handle=%d mtu=%d\n"
          [ArgInt conn_handle; ArgInt value]
  | BLE_GAP_EVENT_other _ =>
      mret tt
  end;;
  mret 0.

(** [ble_hs_id_infer_auto(0, &ble_temp_addr_type)]: the host stores the
    address type and returns its status. *)
Definition infer_addr_type : M Z :=
  fun w => let c := ble_hs_id_infer_auto 0 in
           let r := ext_ret (trace w) c in
           Ok r (with_addr_type (inferred_addr_type (trace w))
                   (with_trace (trace w ++ [Ext c r]) w)).

Definition on_sync : M unit :=
  rc ← infer_addr_type;
  assert (rc =? 0);;
  ble_temp_advertise;;
  LOG INFO "adv started\n" [].

(** ** Start-up *)

Definition init_app_tasks : M Z :=
  call (os_task_init "task1" (CFun fn_task1_handler) NULL TASK1_TASK_PRI
          OS_WAIT_FOREVER TASK1_STACK_SIZE);;
  mret 0.

Definition set_cfg (s g : cval) : M unit := fun w => Ok tt (with_cfg s g w).

(** [main] up to its event loop. *)
Definition main_startup : M unit :=
  call sysinit;;
  call (log_register "ble_temp_sensor_log" (CFun fn_log_console_handler) NULL
          LOG_SYSLEVEL);;
  LOG INFO "hello\n" [];;
  call nrf_temp_init;;
  set_cfg (CFun fn_on_sync) (CFun fn_gatt_svr_register_cb);;
  rc ← call gatt_svr_init;
  assert (rc =? 0);;
  rc ← call (ble_svc_gap_device_name_set device_name);
  assert (rc =? 0);;
  init_app_tasks;;
  mret tt.

(** ** The scheduler's view *)

(** The host invokes the callback that [ble_gap_adv_start] registered. *)
Definition gap_dispatch (ev : ble_gap_event) : M Z :=
  emit (Deliver ev);;
  ble_temp_gap_event ev.

(** What runs next: the host's sync callback, the GAP callback on one
    event, or one iteration of the sampler task. *)
Inductive turn :=
| Sync
| Gap (ev : ble_gap_event)
| Tick.

Definition run_turn (t : turn) : M unit :=
  match t with
  | Sync => on_sync
  | Gap ev => gap_dispatch ev;; mret tt
  | Tick => task1_iteration
  end.

Fixpoint run_turns (ts : list turn) : M unit :=
  match ts with
  | [] => mret tt
  | t :: ts' => run_turn t;; run_turns ts'
  end.

End Program.

(** ** The radio link *)

(** Modelled from the spec: the three states of spec section 3.  main.c
    keeps no connection-state variable, so the state is read off the
    interaction trace, in two ways that are kept apart: the status of the
    radio link ([link], here) and the state machine of spec section 4.2
    ([machine], below). *)
Inductive ConnectionState := Idle | Advertising | Connected.

(** The status of the radio link, as the host's answers and events report
    it.  The device is on air once [ble_gap_adv_start] has returned 0.  A
    CONNECT event with status 0 reports an established connection.  A
    CONNECT event with another status, a DISCONNECT event and an
    ADV_COMPLETE event report that the connection attempt, the connection
    or the advertising procedure has ended (the handler's comments:
    "Connection failed; resume advertising", "Connection terminated; resume
    advertising"), which leaves the device neither on air nor connected
    until a later [ble_gap_adv_start] is accepted.  This is not the state
    machine of the spec: the two differ when the host rejects an advertise
    call, where spec section 8 has the state "Advertising-intended but no
    active advertisement is running". *)
Definition link_step (s : ConnectionState) (a : Action) : ConnectionState :=
  match a with
  | Ext (ble_gap_adv_start _ _ _ _ _ _) rc =>
      if rc =? 0 then Advertising else s
  | Deliver (BLE_GAP_EVENT_CONNECT status) =>
      if status =? 0 then Connected else Idle
  | Deliver (BLE_GAP_EVENT_DISCONNECT _) => Idle
  | Deliver BLE_GAP_EVENT_ADV_COMPLETE => Idle
  | _ => s
  end.

Definition link_from (s : ConnectionState) (t : list Action) : ConnectionState :=
  fold_left link_step t s.

Definition link_of (t : list Action) : ConnectionState := link_from Idle t.

Definition link (w : World) : ConnectionState := link_of (trace w).

(** ** Turns that complete *)

(** One turn of the system that ran to its end: the sync callback, the GAP
    handler on any event, or an iteration of the sampler.  Nothing is
    assumed of which event the host delivers, or when. *)
Inductive step `{Platform} : World -> turn -> World -> Prop :=
| step_sync w w' :
    run_turn Sync w = Ok tt w' -> step w Sync w'
| step_gap w ev w' :
    run_turn (Gap ev) w = Ok tt w' -> step w (Gap ev) w'
| step_tick w w' :
    run_turn Tick w = Ok tt w' -> step w Tick w'.

(** Sequences of such turns, oldest first. *)
Inductive run `{Platform} : World -> list turn -> World -> Prop :=
| run_nil w : run w [] w
| run_snoc w ts w1 t w2 :
    run w ts w1 -> step w1 t w2 -> run w (ts ++ [t]) w2.

(** ** Reading a trace *)

Definition is_set_fields (a : Action) : bool :=
  match a with Ext (ble_gap_adv_set_fields _) _ => true | _ => false end.

Definition is_adv_start (a : Action) : bool :=
  match a with Ext (ble_gap_adv_start _ _ _ _ _ _) _ => true | _ => false end.

(** The number of times the advertise operation was entered: it calls
    [ble_gap_adv_set_fields] first, once, and nothing else calls it. *)
Fixpoint advertise_calls (t : list Action) : nat :=
  match t with
  | [] => O
  | a :: t' => (if is_set_fields a then 1 else 0) + advertise_calls t'
  end.

(** ** The advertising state machine *)

(** Modelled from the spec: the state machine of spec section 4.2.  The
    machine is [Idle] only before the first advertise call.  It is
    [Advertising] from the moment the advertise operation is entered (the
    operation's first action is its [ble_gap_adv_set_fields] call), whatever
    the host answers: spec section 8 keeps the state "Advertising-intended"
    when the start fails.  It is [Connected] from the delivery of a CONNECT
    event with status 0.  A CONNECT event with another status, a DISCONNECT
    and an ADV_COMPLETE event move it only through the advertise call the
    handler makes for them; an MTU event and the sampler do not move it. *)
Definition machine_step (s : ConnectionState) (a : Action) : ConnectionState :=
  match a with
  | Ext (ble_gap_adv_set_fields _) _ => Advertising
  | Deliver (BLE_GAP_EVENT_CONNECT status) =>
      if status =? 0 then Connected else s
  | _ => s
  end.

Definition machine_from (s : ConnectionState) (t : list Action) : ConnectionState :=
  fold_left machine_step t s.

Definition machine_of (t : list Action) : ConnectionState := machine_from Idle t.

Definition machine (w : World) : ConnectionState := machine_of (trace w).

(** [ble_temp_gap_event] is a static function (main.c, lines 41 and 117),
    and main.c gives its address away in one place only: as the callback
    argument of [ble_gap_adv_start] in [ble_temp_advertise] (lines 108 and
    109).  The host knows the callback once such a call has been made. *)
Definition callback_handed_out (t : list Action) : bool := existsb is_adv_start t.

(** A turn the system can take: it completes, and if it is the delivery of
    a GAP event, the host has been given the callback to deliver it to.
    The host's answer to that [ble_gap_adv_start] does not matter, and
    neither does the state. *)
Definition reachable_step `{Platform} (w : World) (t : turn) (w' : World) : Prop :=
  step w t w' /\
  match t with
  | Gap _ => callback_handed_out (trace w) = true
  | _ => True
  end.

(** The runs the system can make, oldest turn first. *)
Inductive reachable_run `{Platform} : World -> list turn -> World -> Prop :=
| reachable_nil w : reachable_run w [] w
| reachable_snoc w ts w1 t w2 :
    reachable_run w ts w1 -> reachable_step w1 t w2 ->
    reachable_run w (ts ++ [t]) w2.

(** The samples the driver returned, oldest first. *)
Fixpoint samples_read (t : list Action) : list Z :=
  match t with
  | [] => []
  | Ext get_temp_measurement v :: t' => v :: samples_read t'
  | _ :: t' => samples_read t'
  end.

(** The tick counts passed to [os_time_delay], oldest first. *)
Fixpoint delays (t : list Action) : list Z :=
  match t with
  | [] => []
  | Ext (os_time_delay n) _ :: t' => n :: delays t'
  | _ :: t' => delays t'
  end.

Definition buffer_full : Action := Log INFO "buffer full\n" [].
Definition hex_line (v : Z) : Action := Log INFO "%x" [ArgInt v].

Definition is_buffer_full (a : Action) : bool :=
  match a with
  | Log INFO fmt [] => String.eqb fmt "buffer full\n"
  | _ => false
  end.

Definition hex_value (a : Action) : option Z :=
  match a with
  | Log INFO fmt [ArgInt v] => if String.eqb fmt "%x" then Some v else None
  | _ => None
  end.

(** The buffer-full reports of a trace: a "buffer full" line opens a
    report and the "%x" lines after it are its samples.  While the trace is
    read the newest report comes first and its newest sample first. *)
Definition report_step (rs : list (list Z)) (a : Action) : list (list Z) :=
  if is_buffer_full a then [] :: rs
  else match hex_value a, rs with
       | Some v, r :: rs' => (v :: r) :: rs'
       | _, _ => rs
       end.

Definition reports_from (rs : list (list Z)) (t : list Action) : list (list Z) :=
  fold_left report_step t rs.

(** Oldest report first, each in the order it was logged. *)
Definition reports (t : list Action) : list (list Z) :=
  rev (map (@rev Z) (reports_from [] t)).

(** ** What one call of the advertise operation adds to a history *)

Section Advertise.
Context `{Platform}.

Definition set_fields_call : ext_call :=
  ble_gap_adv_set_fields advertisement_fields.

Definition adv_start_call (own_addr_type : Z) : ext_call :=
  ble_gap_adv_start own_addr_type NULL BLE_HS_FOREVER advertisement_params
    (CFun fn_ble_temp_gap_event) NULL.

(** The host's answer to [ble_gap_adv_set_fields] after history [t]. *)
Definition set_fields_rc (t : list Action) : Z := ext_ret t set_fields_call.

(** The host's answer to the [ble_gap_adv_start] that follows it. *)
Definition adv_start_rc (t : list Action) (a : Z) : Z :=
  ext_ret (t ++ [Ext set_fields_call (set_fields_rc t)]) (adv_start_call a).

(** Both calls of an advertise operation entered after [t] return 0. *)
Definition stack_accepts (t : list Action) (a : Z) : bool :=
  (set_fields_rc t =? 0) && (adv_start_rc t a =? 0).

Definition set_fields_error (rc : Z) : Action :=
  Log ERROR "error setting advertisement data; rc=%d\n" [ArgInt rc].

Definition adv_start_error (rc : Z) : Action :=
  Log ERROR "error enabling advertisement; rc=%d\n" [ArgInt rc].

(** The actions of [ble_temp_advertise] entered after history [t] with
    [ble_temp_addr_type = a]. *)
Definition advertise_actions (t : list Action) (a : Z) : list Action :=
  Ext set_fields_call (set_fields_rc t) ::
  if negb (set_fields_rc t =? 0) then [set_fields_error (set_fields_rc t)]
  else Ext (adv_start_call a) (adv_start_rc t a) ::
       if negb (adv_start_rc t a =? 0) then [adv_start_error (adv_start_rc t a)]
       else [].

(** The line the GAP handler logs first for an event. *)
Definition event_log (ev : ble_gap_event) : list Action :=
  match ev with
  | BLE_GAP_EVENT_CONNECT status =>
      [Log INFO "connection %s; status=%d\n"
         [ArgStr (if status =? 0 then "established" else "failed");
          ArgInt status]]
  | BLE_GAP_EVENT_DISCONNECT reason =>
      [Log INFO "disconnect; reason=%d\n" [ArgInt reason]]
  | BLE_GAP_EVENT_ADV_COMPLETE => [Log INFO "adv complete\n" []]
  | BLE_GAP_EVENT_MTU conn_handle value =>
      [Log INFO "mtu update event; conn_handle=%d mtu=%d\n"
         [ArgInt conn_handle; ArgInt value]]
  | BLE_GAP_EVENT_other _ => []
  end.

(** The events after which the handler calls [ble_temp_advertise]. *)
Definition resumes_advertising (ev : ble_gap_event) : bool :=
  match ev with
  | BLE_GAP_EVENT_CONNECT status => negb (status =? 0)
  | BLE_GAP_EVENT_DISCONNECT _ => true
  | BLE_GAP_EVENT_ADV_COMPLETE => true
  | _ => false
  end.

(** The turns in which [ble_temp_advertise] is called from world [w]. *)
Definition enters_advertise (t : turn) (w : World) : bool :=
  match t with
  | Sync => ext_ret (trace w) (ble_hs_id_infer_auto 0) =? 0
  | Gap ev => resumes_advertising ev
  | Tick => false
  end.

End Advertise.

Arguments advertise_actions : simpl never.

(** A Disconnect or Advertising-complete event. *)
Definition ends_connectivity (ev : ble_gap_event) : bool :=
  match ev with
  | BLE_GAP_EVENT_DISCONNECT _ => true
  | BLE_GAP_EVENT_ADV_COMPLETE => true
  | _ => false
  end.

(** The sampler's array has its ten slots and the index points at one. *)
Definition sampler_ok (w : World) : Prop :=
  0 <= temperature_readings_index w < TEMPERATURE_READINGS_BUFFER_SIZE /\
  length (temperature_readings w) = 10%nat.

(** ** Platforms for the examples *)

(** Sample header constants and a kernel with 128 ticks per second; the
    collaborators' answers are left open. *)
Definition sample_platform (rc : list Action -> ext_call -> Z) : Platform :=
  {| BLE_HS_ADV_F_DISC_GEN := 2;
     BLE_HS_ADV_F_BREDR_UNSUP := 4;
     BLE_HS_ADV_TX_PWR_LVL_AUTO := -128;
     BLE_GAP_CONN_MODE_UND := 2;
     BLE_GAP_DISC_MODE_GEN := 2;
     BLE_HS_FOREVER := 2147483647;
     OS_WAIT_FOREVER := 4294967295;
     LOG_SYSLEVEL := 0;
     os_time_ms_to_ticks := fun ms => ms * 128 / 1000;
     ext_ret := rc;
     inferred_addr_type := fun _ => 1 |}.

(** Every call succeeds; the [k]-th temperature reading is [2000 + k]. *)
Definition all_succeed (t : list Action) (c : ext_call) : Z :=
  match c with
  | get_temp_measurement => 2000 + Z.of_nat (length (samples_read t))
  | _ => 0
  end.

(** The host accepts the first [ble_gap_adv_set_fields] and rejects the
    later ones with status 3. *)
Definition fields_only_once (t : list Action) (c : ext_call) : Z :=
  match c with
  | ble_gap_adv_set_fields _ => if existsb is_set_fields t then 3 else 0
  | _ => all_succeed t c
  end.

(** The host rejects every [ble_gap_adv_set_fields] with status 3. *)
Definition fields_rejected (t : list Action) (c : ext_call) : Z :=
  match c with
  | ble_gap_adv_set_fields _ => 3
  | _ => all_succeed t c
  end.

(** The host accepts the fields and rejects every [ble_gap_adv_start]. *)
Definition start_rejected (t : list Action) (c : ext_call) : Z :=
  match c with
  | ble_gap_adv_start _ _ _ _ _ _ => 6
  | _ => all_succeed t c
  end.

(** One start-up call fails with status 1. *)
Definition infer_fails (t : list Action) (c : ext_call) : Z :=
  match c with ble_hs_id_infer_auto _ => 1 | _ => all_succeed t c end.

Definition gatt_init_fails (t : list Action) (c : ext_call) : Z :=
  match c with gatt_svr_init => 1 | _ => all_succeed t c end.

Definition name_set_fails (t : list Action) (c : ext_call) : Z :=
  match c with ble_svc_gap_device_name_set _ => 1 | _ => all_succeed t c end.

(** ** The histories at which the start-up calls are answered *)

Section Startup.
Context `{Platform}.

Definition log_register_call : ext_call :=
  log_register "ble_temp_sensor_log" (CFun fn_log_console_handler) NULL
    LOG_SYSLEVEL.

(** The history of [main] when it reaches [gatt_svr_init], having started
    after [t]. *)
Definition before_gatt_init (t : list Action) : list Action :=
  let t1 := t ++ [Ext sysinit (ext_ret t sysinit)] in
  let t2 := t1 ++ [Ext log_register_call (ext_ret t1 log_register_call)] in
  let t3 := t2 ++ [Log INFO "hello\n" []] in
  t3 ++ [Ext nrf_temp_init (ext_ret t3 nrf_temp_init)].

Definition gatt_init_rc (t : list Action) : Z :=
  ext_ret (before_gatt_init t) gatt_svr_init.

Definition before_name_set (t : list Action) : list Action :=
  before_gatt_init t ++ [Ext gatt_svr_init (gatt_init_rc t)].

Definition name_set_rc (t : list Action) : Z :=
  ext_ret (before_name_set t) (ble_svc_gap_device_name_set device_name).

Definition infer_rc (t : list Action) : Z :=
  ext_ret t (ble_hs_id_infer_auto 0).

End Startup.

(** Actions that neither move the link nor enter the advertise operation:
    log lines and the calls of the sampler and of start-up. *)
Definition quiet (a : Action) : bool :=
  match a with
  | Log _ _ _ => true
  | Ext (ble_gap_adv_set_fields _) _ => false
  | Ext (ble_gap_adv_start _ _ _ _ _ _) _ => false
  | Ext _ _ => true
  | Deliver _ => false
  end.

(** What holds of the sampler after [n] iterations, with [n = 10 q + r]:
    the index is [r], the first [r] slots hold the samples that arrived
    since the last report, and the [q] reports made so far are the first
    [10 q] samples, ten at a time. *)
Definition sampler_inv `{Platform} (n : nat) (w : World) : Prop :=
  exists q r : nat,
    n = (10 * q + r)%nat /\ (r < 10)%nat /\
    sampler_ok w /\
    temperature_readings_index w = Z.of_nat r /\
    length (samples_read (trace w)) = n /\
    take r (temperature_readings w)
      = drop (10 * q) (map int16 (samples_read (trace w))) /\
    length (reports (trace w)) = q /\
    Forall (fun rep => length rep = 10%nat) (reports (trace w)) /\
    concat (reports (trace w))
      = take (10 * q) (map int16 (samples_read (trace w))) /\
    delays (trace w) = replicate n (os_time_ms_to_ticks TEMPERATURE_PERIOD).

(** Actions the sampler's readers pass over: no sensor reading, no delay
    request, no line of a buffer-full report. *)
Definition not_sampler (a : Action) : bool :=
  match a with
  | Ext get_temp_measurement _ => false
  | Ext (os_time_delay _) _ => false
  | _ => negb (is_buffer_full a)
         && match hex_value a with Some _ => false | None => true end
  end.

(** The number of sampler iterations among the turns. *)
Fixpoint ticks (ts : list turn) : nat :=
  match ts with
  | [] => O
  | Tick :: ts' => S (ticks ts')
  | _ :: ts' => ticks ts'
  end.

(** ** Further readers *)

(** The values an [int16_t] can hold. *)
Definition is_int16 (z : Z) : Prop := -32768 <= z <= 32767.

(** The call by which [init_app_tasks] creates the sampler task. *)
Definition task_init_call `{Platform} : ext_call :=
  os_task_init "task1" (CFun fn_task1_handler) NULL TASK1_TASK_PRI
    OS_WAIT_FOREVER TASK1_STACK_SIZE.

Definition is_task_init (a : Action) : bool :=
  match a with Ext (os_task_init _ _ _ _ _ _) _ => true | _ => false end.

(** The number of tasks the program has asked the kernel to create. *)
Fixpoint task_inits (t : list Action) : nat :=
  match t with
  | [] => O
  | a :: t' => (if is_task_init a then 1 else 0) + task_inits t'
  end.

Definition is_error_line (a : Action) : bool :=
  match a with Log ERROR _ _ => true | _ => false end.

(** The number of ERROR lines in a trace. *)
Fixpoint error_lines (t : list Action) : nat :=
  match t with
  | [] => O
  | a :: t' => (if is_error_line a then 1 else 0) + error_lines t'
  end.

(** The ERROR line that [ble_temp_advertise] writes after a call into the
    host: none, unless the call is its [ble_gap_adv_set_fields] or its
    [ble_gap_adv_start] and returned non-zero; then the line carries the
    returned status. *)
Definition error_line_for (a : Action) : option Action :=
  match a with
  | Ext (ble_gap_adv_set_fields _) rc =>
      if rc =? 0 then None else Some (set_fields_error rc)
  | Ext (ble_gap_adv_start _ _ _ _ _ _) rc =>
      if rc =? 0 then None else Some (adv_start_error rc)
  | _ => None
  end.

(** The number of advertise calls that the host rejected. *)
Fixpoint rejected_advertise_calls (t : list Action) : nat :=
  match t with
  | [] => O
  | a :: t' =>
      (match error_line_for a with Some _ => 1 | None => 0 end)
      + rejected_advertise_calls t'
  end.

(** Every rejected advertise call of the trace is followed at once by its
    ERROR line, and the trace has no other ERROR line.  [owed] is the line
    that the action before the trace calls for, if any. *)
Fixpoint errors_report_rejections (owed : option Action) (t : list Action) : Prop :=
  match t with
  | [] => owed = None
  | a :: t' =>
      match owed with
      | Some e => a = e
      | None => is_error_line a = false
      end /\ errors_report_rejections (error_line_for a) t'
  end.

(** The arguments with which main.c calls into the host to advertise: the
    one payload of [ble_temp_advertise], and a start that is undirected,
    without time limit, with the parameters of [ble_temp_advertise] and
    [ble_temp_gap_event] as the callback.  Other actions are not
    constrained. *)
Definition advertises_as_coded `{Platform} (a : Action) : Prop :=
  match a with
  | Ext (ble_gap_adv_set_fields f) _ => f = advertisement_fields
  | Ext (ble_gap_adv_start _ direct_addr duration_ms adv_params cb cb_arg) _ =>
      direct_addr = NULL /\ duration_ms = BLE_HS_FOREVER /\
      adv_params = advertisement_params /\
      cb = CFun fn_ble_temp_gap_event /\ cb_arg = NULL
  | _ => True
  end.

(** Whether the action is a field setting that the host accepted. *)
Definition fields_accepted (a : Action) : bool :=
  match a with
  | Ext (ble_gap_adv_set_fields _) rc => rc =? 0
  | _ => false
  end.

(** Every [ble_gap_adv_start] of the trace comes right after an accepted
    [ble_gap_adv_set_fields]; [prev] tells whether the action before the
    trace was one. *)
Fixpoint starts_follow_fields (prev : bool) (t : list Action) : bool :=
  match t with
  | [] => true
  | a :: t' =>
      (if is_adv_start a then prev else true)
      && starts_follow_fields (fields_accepted a) t'
  end.

(** The host accepts every advertise call of main.c, whatever came
    before. *)
Definition host_accepts_advertising `{Platform} : Prop :=
  (forall t f, ext_ret t (ble_gap_adv_set_fields f) = 0) /\
  (forall t a d n p cb arg, ext_ret t (ble_gap_adv_start a d n p cb arg) = 0).

Definition is_sync (t : turn) : bool :=
  match t with Sync => true | _ => false end.

(** Every [ble_gap_adv_start] of the trace was given [a] as its own
    address type. *)
Definition starts_with_addr_type (a : Z) (act : Action) : Prop :=
  match act with
  | Ext (ble_gap_adv_start own_addr_type _ _ _ _ _) _ => own_addr_type = a
  | _ => True
  end.

(** What an iteration of the sampler can add to the trace: a sensor
    reading, a delay request, an INFO line. *)
Definition sampler_action (a : Action) : bool :=
  match a with
  | Ext get_temp_measurement _ => true
  | Ext (os_time_delay _) _ => true
  | Log INFO _ _ => true
  | _ => false
  end.

(** * Properties *)

(** ** Basic facts *)

Lemma link_from_app s t1 t2 :
  link_from s (t1 ++ t2) = link_from (link_from s t1) t2.
Proof. apply fold_left_app. Qed.

Lemma link_of_app t1 t2 : link_of (t1 ++ t2) = link_from (link_of t1) t2.
Proof. apply link_from_app. Qed.

Lemma machine_from_app s t1 t2 :
  machine_from s (t1 ++ t2) = machine_from (machine_from s t1) t2.
Proof. apply fold_left_app. Qed.

Lemma machine_of_app t1 t2 :
  machine_of (t1 ++ t2) = machine_from (machine_of t1) t2.
Proof. apply machine_from_app. Qed.

(** Once left, [Idle] is not entered again. *)
Lemma machine_never_idle_again s t : s <> Idle -> machine_from s t <> Idle.
Proof.
  revert s. induction t as [|a t IH]; intros s Hs; [exact Hs |].
  apply IH. destruct a as [| c r | ev]; simpl; try exact Hs.
  - destruct c; try exact Hs. discriminate.
  - destruct ev as [status | | | |]; try exact Hs.
    destruct (status =? 0); [discriminate | exact Hs].
Qed.

Lemma callback_handed_out_app t1 t2 :
  callback_handed_out (t1 ++ t2) = callback_handed_out t1 || callback_handed_out t2.
Proof. apply existsb_app. Qed.

Lemma advertise_calls_app t1 t2 :
  advertise_calls (t1 ++ t2) = (advertise_calls t1 + advertise_calls t2)%nat.
Proof. induction t1 as [|a t1 IH]; simpl; [reflexivity | rewrite IH; lia]. Qed.

Lemma samples_read_app t1 t2 :
  samples_read (t1 ++ t2) = samples_read t1 ++ samples_read t2.
Proof.
  induction t1 as [|a t1 IH]; simpl; [reflexivity |].
  destruct a as [| c r |]; try exact IH.
  destruct c; simpl; try exact IH. now rewrite IH.
Qed.

Lemma delays_app t1 t2 : delays (t1 ++ t2) = delays t1 ++ delays t2.
Proof.
  induction t1 as [|a t1 IH]; simpl; [reflexivity |].
  destruct a as [| c r |]; try exact IH.
  destruct c; simpl; try exact IH. now rewrite IH.
Qed.

Lemma reports_from_app rs t1 t2 :
  reports_from rs (t1 ++ t2) = reports_from (reports_from rs t1) t2.
Proof. apply fold_left_app. Qed.

Lemma reports_from_hex_lines r rs vs :
  reports_from (r :: rs) (map hex_line vs) = (rev vs ++ r) :: rs.
Proof.
  revert r. induction vs as [|v vs IH]; intros r; simpl; [reflexivity |].
  unfold reports_from in IH. unfold reports_from. simpl.
  change (fold_left report_step (map hex_line vs) ((v :: r) :: rs)
          = ((rev vs ++ [v]) ++ r) :: rs).
  rewrite IH, <- app_assoc. reflexivity.
Qed.

Lemma samples_read_hex_lines vs : samples_read (map hex_line vs) = [].
Proof. induction vs; simpl; auto. Qed.

Lemma delays_hex_lines vs : delays (map hex_line vs) = [].
Proof. induction vs; simpl; auto. Qed.

(** ** Running the advertise operation and the GAP handler *)

Section AdvertisingFacts.
Context `{Platform}.

Lemma Ok_world {A} (a b : A) (w1 w2 : World) : Ok a w1 = Ok b w2 -> w1 = w2.
Proof. congruence. Qed.

Lemma with_trace_same w : with_trace (trace w) w = w.
Proof. destruct w; reflexivity. Qed.

Lemma ble_temp_advertise_run w :
  ble_temp_advertise w =
  Ok tt (with_trace (trace w ++ advertise_actions (trace w) (ble_temp_addr_type w)) w).
Proof.
  unfold ble_temp_advertise, advertise_actions, mbind, M_bind, call, LOG, emit,
    get_addr_type, mret, M_ret.
  fold set_fields_call. fold (set_fields_rc (trace w)). simpl.
  destruct (set_fields_rc (trace w) =? 0) eqn:E1; simpl.
  - fold (adv_start_call (ble_temp_addr_type w)).
    fold (adv_start_rc (trace w) (ble_temp_addr_type w)).
    destruct (adv_start_rc (trace w) (ble_temp_addr_type w) =? 0); simpl;
      unfold with_trace; simpl; rewrite <- ?app_assoc; reflexivity.
  - unfold with_trace; simpl. rewrite <- app_assoc. reflexivity.
Qed.

Lemma ble_temp_gap_event_run ev w :
  ble_temp_gap_event ev w =
  Ok 0 (with_trace
          (trace w ++ event_log ev ++
           (if resumes_advertising ev
            then advertise_actions (trace w ++ event_log ev) (ble_temp_addr_type w)
            else [])) w).
Proof.
  destruct ev as [status | reason | | h v | ty];
    unfold ble_temp_gap_event, mbind, M_bind, LOG, emit, mret, M_ret; simpl.
  - destruct (status =? 0); simpl.
    + reflexivity.
    + rewrite ble_temp_advertise_run. simpl. rewrite <- app_assoc. reflexivity.
  - rewrite ble_temp_advertise_run. simpl. rewrite <- app_assoc. reflexivity.
  - rewrite ble_temp_advertise_run. simpl. rewrite <- app_assoc. reflexivity.
  - reflexivity.
  - rewrite app_nil_r, with_trace_same. reflexivity.
Qed.

Lemma gap_dispatch_run ev w :
  gap_dispatch ev w =
  Ok 0 (with_trace
          (trace w ++ Deliver ev :: event_log ev ++
           (if resumes_advertising ev
            then advertise_actions (trace w ++ Deliver ev :: event_log ev)
                   (ble_temp_addr_type w)
            else [])) w).
Proof.
  unfold gap_dispatch, mbind, M_bind, emit at 1.
  rewrite ble_temp_gap_event_run. simpl.
  rewrite <- !app_assoc. reflexivity.
Qed.

Lemma link_from_advertise s t a :
  link_from s (advertise_actions t a) =
  if stack_accepts t a then Advertising else s.
Proof.
  unfold advertise_actions, stack_accepts, link_from.
  destruct (set_fields_rc t =? 0) eqn:E1; simpl; [| reflexivity].
  destruct (adv_start_rc t a =? 0) eqn:E2; simpl; rewrite ?E2; reflexivity.
Qed.

Lemma link_from_event_log s ev : link_from s (event_log ev) = s.
Proof. destruct ev; reflexivity. Qed.

Lemma advertise_calls_advertise t a : advertise_calls (advertise_actions t a) = 1%nat.
Proof.
  unfold advertise_actions. simpl.
  destruct (set_fields_rc t =? 0); simpl; [| reflexivity].
  destruct (adv_start_rc t a =? 0); reflexivity.
Qed.

Lemma advertise_calls_event_log ev : advertise_calls (event_log ev) = 0%nat.
Proof. destruct ev; reflexivity. Qed.

(** The handler never stops the program, whatever the event sequence. *)
Lemma run_turns_gap_total evs w :
  exists w', run_turns (map Gap evs) w = Ok tt w'.
Proof.
  revert w. induction evs as [|ev evs IH]; intros w; simpl.
  - eexists; reflexivity.
  - unfold mbind, M_bind. rewrite gap_dispatch_run. simpl. apply IH.
Qed.

(** Entering the advertise operation puts the machine in [Advertising],
    whatever the host answers. *)
Lemma machine_from_advertise s t a :
  machine_from s (advertise_actions t a) = Advertising.
Proof.
  unfold advertise_actions, machine_from.
  destruct (set_fields_rc t =? 0); simpl; [| reflexivity].
  destruct (adv_start_rc t a =? 0); reflexivity.
Qed.

Lemma machine_from_event_log s ev : machine_from s (event_log ev) = s.
Proof. destruct ev; reflexivity. Qed.

Lemma machine_after_gap ev w :
  machine (world_of (gap_dispatch ev w)) =
  if resumes_advertising ev then Advertising
  else machine_step (machine w) (Deliver ev).
Proof.
  rewrite gap_dispatch_run. unfold machine. simpl.
  rewrite machine_of_app.
  change (Deliver ev :: ?l) with ([Deliver ev] ++ l).
  rewrite !machine_from_app, machine_from_event_log.
  destruct (resumes_advertising ev).
  - apply machine_from_advertise.
  - reflexivity.
Qed.

(** A sequence of GAP events run from [w] ends where its last event, run
    from where the others end, ends. *)
Lemma run_turns_gap_snoc evs e w w1 w2 :
  run_turns (map Gap evs) w = Ok tt w1 ->
  gap_dispatch e w1 = Ok 0 w2 ->
  run_turns (map Gap (evs ++ [e])) w = Ok tt w2.
Proof.
  intros Hw1 Hd. revert w Hw1.
  induction evs as [|ev evs IH]; intros w Hw1; simpl in *.
  - injection Hw1 as ->. unfold mbind, M_bind. rewrite Hd. reflexivity.
  - unfold mbind, M_bind in *. rewrite gap_dispatch_run in *. simpl in *.
    apply IH. exact Hw1.
Qed.

Lemma link_after_gap ev w :
  link (world_of (gap_dispatch ev w)) =
  let s := link_step (link w) (Deliver ev) in
  if resumes_advertising ev
  then if stack_accepts (trace w ++ Deliver ev :: event_log ev) (ble_temp_addr_type w)
       then Advertising else s
  else s.
Proof.
  rewrite gap_dispatch_run. unfold link. simpl.
  rewrite link_of_app.
  change (Deliver ev :: ?l) with ([Deliver ev] ++ l).
  rewrite !link_from_app, link_from_event_log.
  destruct (resumes_advertising ev).
  - rewrite link_from_advertise. reflexivity.
  - reflexivity.
Qed.

End AdvertisingFacts.

(** ** The GAP event handler *)

(** C9.  The handler returns 0 for every event, of any type, from every
    world; and for an event whose type has no case label (not Connect,
    Disconnect, Advertising-complete or MTU-update) it leaves the world as
    it was: no state change, no call into the host, no log line. *)
Theorem gap_event_always_returns_zero `{Platform} :
  (forall ev w, exists w', ble_temp_gap_event ev w = Ok 0 w') /\
  (forall ty w, ble_temp_gap_event (BLE_GAP_EVENT_other ty) w = Ok 0 w).
Proof.
  split.
  - intros ev w. rewrite ble_temp_gap_event_run. eexists; reflexivity.
  - intros ty w. reflexivity.
Qed.

(** C4.  An MTU-update event received while Connected only adds a
    diagnostic line to the log: the handler returns 0, the world differs
    from the old one in its trace alone, the trace gains the delivery and
    one INFO line, the link stays Connected, the advertise operation is not
    entered and the sampler's array and index are untouched. *)
Theorem mtu_event_only_logs `{Platform} (w : World) (conn_handle value : Z) :
  link w = Connected ->
  let line := Log INFO "mtu update event; conn_handle=%d mtu=%d\n"
                [ArgInt conn_handle; ArgInt value] in
  let ev := BLE_GAP_EVENT_MTU conn_handle value in
  ble_temp_gap_event ev w = Ok 0 (with_trace (trace w ++ [line]) w) /\
  exists w',
    gap_dispatch ev w = Ok 0 w' /\
    w' = with_trace (trace w ++ [Deliver ev; line]) w /\
    link w' = Connected /\
    advertise_calls (trace w') = advertise_calls (trace w) /\
    existsb is_adv_start [Deliver ev; line] = false /\
    temperature_readings w' = temperature_readings w /\
    temperature_readings_index w' = temperature_readings_index w.
Proof.
  intros Hc line ev. split; [reflexivity |].
  exists (with_trace (trace w ++ [Deliver ev; line]) w).
  split; [rewrite gap_dispatch_run; reflexivity |]. split; [reflexivity |].
  split.
  { unfold link in *. simpl. rewrite link_of_app, Hc. reflexivity. }
  split.
  { simpl. rewrite advertise_calls_app. simpl. lia. }
  repeat split.
Qed.

Lemma mtu_event_only_logs_witness :
  let P := sample_platform all_succeed in
  let w := with_trace [Deliver (BLE_GAP_EVENT_CONNECT 0)] initial_world in
  link w = Connected /\
  exists w', @gap_dispatch P (BLE_GAP_EVENT_MTU 1 185) w = Ok 0 w' /\
             link w' = Connected.
Proof.
  intros P w.
  assert (Hc : link w = Connected) by reflexivity.
  split; [exact Hc |].
  destruct (@mtu_event_only_logs P w 1 185 Hc) as [_ [w' [H1 [_ [H2 _]]]]].
  exists w'. split; assumption.
Defined.

(** C2.  For every sequence of GAP events delivered to the handler, from
    every world and whatever the host answers: when the sequence ends in a
    Disconnect or an Advertising-complete event, the handler runs to its
    end, a new advertise call is issued for that last event (the trace
    gains the delivery, the event's log line and the actions of one
    advertise operation, and nothing else), and the resulting state is
    Advertising: not Idle, and not Connected. *)
Theorem advertise_reissued_after_link_loss `{Platform}
    (evs : list ble_gap_event) (e : ble_gap_event) (w : World) :
  ends_connectivity e = true ->
  exists w1 w2,
    run_turns (map Gap evs) w = Ok tt w1 /\
    gap_dispatch e w1 = Ok 0 w2 /\
    run_turns (map Gap (evs ++ [e])) w = Ok tt w2 /\
    (let t := trace w1 ++ Deliver e :: event_log e in
     trace w2 = t ++ advertise_actions t (ble_temp_addr_type w1)) /\
    advertise_calls (trace w2) = S (advertise_calls (trace w1)) /\
    machine w2 = Advertising /\
    machine w2 <> Idle /\
    machine w2 <> Connected.
Proof.
  intros He.
  destruct (run_turns_gap_total evs w) as [w1 Hw1].
  assert (Hres : resumes_advertising e = true)
    by (destruct e; try discriminate; reflexivity).
  pose proof (gap_dispatch_run e w1) as Hd. rewrite Hres in Hd.
  pose proof (machine_after_gap e w1) as Hm. rewrite Hd, Hres in Hm.
  cbn [world_of] in Hm.
  set (t := trace w1 ++ Deliver e :: event_log e) in *.
  set (w2 := with_trace
               (trace w1 ++ Deliver e :: event_log e ++
                advertise_actions t (ble_temp_addr_type w1)) w1) in *.
  exists w1, w2.
  split; [exact Hw1 |]. split; [exact Hd |].
  split; [exact (run_turns_gap_snoc evs e w w1 w2 Hw1 Hd) |].
  split.
  { subst w2 t. cbn [trace with_trace]. rewrite <- app_assoc. reflexivity. }
  split.
  { subst w2. cbn [trace with_trace].
    change (Deliver e :: ?l) with ([Deliver e] ++ l).
    rewrite !advertise_calls_app, advertise_calls_event_log, advertise_calls_advertise.
    simpl. lia. }
  split; [exact Hm |].
  rewrite Hm. split; discriminate.
Qed.

Lemma advertise_reissued_after_link_loss_witness :
  let P := sample_platform start_rejected in
  ends_connectivity (BLE_GAP_EVENT_DISCONNECT 19) = true /\
  exists w2,
    @run_turns P (map Gap [BLE_GAP_EVENT_CONNECT 0; BLE_GAP_EVENT_DISCONNECT 19])
      initial_world = Ok tt w2 /\
    machine w2 = Advertising.
Proof.
  intros P. split; [reflexivity |].
  destruct (@advertise_reissued_after_link_loss P [BLE_GAP_EVENT_CONNECT 0]
              (BLE_GAP_EVENT_DISCONNECT 19) initial_world eq_refl)
    as [w1 [w2 [_ [_ [Hrun [_ [_ [Hm _]]]]]]]].
  exists w2. split; assumption.
Defined.

(** ** The advertisement payload *)

(** C6.  The payload that every call of the advertise operation hands to
    the host carries the general-discoverable flag together with the
    BR/EDR-unsupported flag, a transmit-power field marked present with the
    automatic value, and the device name at its full length (18
    characters), marked complete; every other member is zero. *)
Theorem advertisement_payload `{Platform} (w : World) :
  exists f rc rest,
    trace (world_of (ble_temp_advertise w))
      = trace w ++ Ext (ble_gap_adv_set_fields f) rc :: rest /\
    existsb is_set_fields rest = false /\
    f "flags" = CInt (Z.lor BLE_HS_ADV_F_DISC_GEN BLE_HS_ADV_F_BREDR_UNSUP) /\
    f "tx_pwr_lvl_is_present" = CInt 1 /\
    f "tx_pwr_lvl" = CInt BLE_HS_ADV_TX_PWR_LVL_AUTO /\
    f "name" = CStr device_name /\
    f "name_len" = CInt (Z.of_nat (String.length device_name)) /\
    f "name_len" = CInt 18 /\
    f "name_is_complete" = CInt 1 /\
    forall m : string,
      ~ In m ["flags"; "tx_pwr_lvl_is_present"; "tx_pwr_lvl"; "name";
              "name_len"; "name_is_complete"] ->
      f m = CInt 0.
Proof.
  rewrite ble_temp_advertise_run. simpl.
  exists advertisement_fields. eexists. eexists.
  split; [reflexivity |].
  split.
  { destruct (set_fields_rc (trace w) =? 0); simpl; [| reflexivity].
    destruct (adv_start_rc (trace w) (ble_temp_addr_type w) =? 0); reflexivity. }
  repeat (split; [reflexivity |]).
  intros m Hm. unfold advertisement_fields, assign, fn_insert, memset0.
  repeat match goal with
         | |- context [decide (?a = m)] =>
             destruct (decide (a = m)) as [<- | _];
             [exfalso; apply Hm; simpl; tauto |]
         end.
  reflexivity.
Qed.

Lemma advertisement_payload_witness :
  let P := sample_platform all_succeed in
  ~ In "uuids16" ["flags"; "tx_pwr_lvl_is_present"; "tx_pwr_lvl"; "name";
                  "name_len"; "name_is_complete"] /\
  exists f rc rest,
    trace (world_of (@ble_temp_advertise P initial_world))
      = Ext (ble_gap_adv_set_fields f) rc :: rest /\
    f "flags" = CInt 6 /\
    f "uuids16" = CInt 0.
Proof.
  intros P.
  assert (Hn : ~ In "uuids16" ["flags"; "tx_pwr_lvl_is_present"; "tx_pwr_lvl";
                               "name"; "name_len"; "name_is_complete"]).
  { simpl. intros [E | [E | [E | [E | [E | [E | []]]]]]]; discriminate E. }
  split; [exact Hn |].
  destruct (@advertisement_payload P initial_world)
    as [f [rc [rest [Ht [_ [Hf [_ [_ [_ [_ [_ [_ Hz]]]]]]]]]]]].
  exists f, rc, rest. split; [exact Ht |]. split; [exact Hf |].
  apply Hz. exact Hn.
Defined.

(** ** Start-up *)

Section StartupFacts.
Context `{Platform}.

Lemma on_sync_run w :
  let w1 := with_addr_type (inferred_addr_type (trace w))
              (with_trace (trace w ++ [Ext (ble_hs_id_infer_auto 0) (infer_rc (trace w))]) w) in
  on_sync w =
  if infer_rc (trace w) =? 0
  then Ok tt (with_trace
                (trace w1 ++ advertise_actions (trace w1) (ble_temp_addr_type w1)
                 ++ [Log INFO "adv started\n" []]) w1)
  else Halt AssertFailed w1.
Proof.
  intros w1. unfold on_sync, mbind, M_bind, infer_addr_type, assert, LOG, emit.
  fold (infer_rc (trace w)). fold w1.
  destruct (infer_rc (trace w) =? 0); [| reflexivity].
  rewrite ble_temp_advertise_run. simpl. rewrite <- app_assoc. reflexivity.
Qed.

Lemma main_startup_run w :
  main_startup w =
  if gatt_init_rc (trace w) =? 0
  then if name_set_rc (trace w) =? 0
       then let t := before_name_set (trace w)
                     ++ [Ext (ble_svc_gap_device_name_set device_name) 
                           (name_set_rc (trace w))] in
            let c := os_task_init "task1" (CFun fn_task1_handler) NULL
                       TASK1_TASK_PRI OS_WAIT_FOREVER TASK1_STACK_SIZE in
            Ok tt (with_trace (t ++ [Ext c (ext_ret t c)])
                     (with_cfg (CFun fn_on_sync) (CFun fn_gatt_svr_register_cb) w))
       else Halt AssertFailed
              (with_trace
                 (before_name_set (trace w)
                  ++ [Ext (ble_svc_gap_device_name_set device_name)
                        (name_set_rc (trace w))])
                 (with_cfg (CFun fn_on_sync) (CFun fn_gatt_svr_register_cb) w))
  else Halt AssertFailed
         (with_trace (before_name_set (trace w))
            (with_cfg (CFun fn_on_sync) (CFun fn_gatt_svr_register_cb) w)).
Proof.
  unfold main_startup, init_app_tasks, mbind, M_bind, call, LOG, emit, set_cfg,
    assert, mret, M_ret, name_set_rc, before_name_set, gatt_init_rc,
    before_gatt_init, log_register_call.
  cbn [trace with_trace with_cfg].
  destruct (ext_ret _ gatt_svr_init =? 0); [| reflexivity].
  cbn [trace with_trace with_cfg].
  destruct (ext_ret _ (ble_svc_gap_device_name_set device_name) =? 0);
    reflexivity.
Qed.

End StartupFacts.

(** C7.  Each of the three start-up calls is followed by an assertion that
    it returned 0.  When identity inference returns non-zero, [on_sync]
    stops right after that call and never advertises.  When the attribute
    registry's initialisation returns non-zero, [main] stops right after
    it; when that succeeds and setting the device name returns non-zero,
    [main] stops right after the name call.  In the last two cases the
    sampler task is never created. *)
Theorem startup_failures_halt `{Platform} :
  (forall w, infer_rc (trace w) <> 0 ->
     exists w', on_sync w = Halt AssertFailed w' /\
       trace w' = trace w ++ [Ext (ble_hs_id_infer_auto 0) (infer_rc (trace w))]) /\
  (forall w, gatt_init_rc (trace w) <> 0 ->
     exists w', main_startup w = Halt AssertFailed w' /\
       trace w' = before_gatt_init (trace w)
                  ++ [Ext gatt_svr_init (gatt_init_rc (trace w))]) /\
  (forall w, gatt_init_rc (trace w) = 0 -> name_set_rc (trace w) <> 0 ->
     exists w', main_startup w = Halt AssertFailed w' /\
       trace w' = before_gatt_init (trace w)
                  ++ [Ext gatt_svr_init 0;
                      Ext (ble_svc_gap_device_name_set device_name)
                        (name_set_rc (trace w))]).
Proof.
  split; [| split].
  - intros w Hrc. pose proof (on_sync_run w) as Hr. simpl in Hr.
    apply Z.eqb_neq in Hrc. rewrite Hrc in Hr.
    eexists. split; [exact Hr | reflexivity].
  - intros w Hrc. pose proof (main_startup_run w) as Hr.
    apply Z.eqb_neq in Hrc. rewrite Hrc in Hr.
    eexists. split; [exact Hr | reflexivity].
  - intros w Hg Hn. pose proof (main_startup_run w) as Hr.
    apply Z.eqb_neq in Hn. rewrite Hg, Hn in Hr. simpl in Hr.
    eexists. split; [exact Hr |]. simpl. unfold before_name_set.
    rewrite Hg, <- app_assoc. reflexivity.
Qed.

Lemma startup_failures_halt_witness :
  (exists w', @on_sync (sample_platform infer_fails) initial_world
              = Halt AssertFailed w') /\
  (exists w', @main_startup (sample_platform gatt_init_fails) initial_world
              = Halt AssertFailed w') /\
  (exists w', @main_startup (sample_platform name_set_fails) initial_world
              = Halt AssertFailed w').
Proof.
  split; [| split].
  - destruct (@startup_failures_halt (sample_platform infer_fails)) as [H1 _].
    destruct (H1 initial_world) as [w' [Hw _]]; [discriminate |].
    exists w'. exact Hw.
  - destruct (@startup_failures_halt (sample_platform gatt_init_fails)) as [_ [H2 _]].
    destruct (H2 initial_world) as [w' [Hw _]]; [discriminate |].
    exists w'. exact Hw.
  - destruct (@startup_failures_halt (sample_platform name_set_fails)) as [_ [_ H3]].
    destruct (H3 initial_world) as [w' [Hw _]]; [reflexivity | discriminate |].
    exists w'. exact Hw.
Defined.

(** ** One iteration of the sampler *)

Section SamplerFacts.
Context `{Platform}.

Lemma quiet_link_from s t : forallb quiet t = true -> link_from s t = s.
Proof.
  revert s. induction t as [|a t IH]; intros s Hq; simpl in *; [reflexivity |].
  apply andb_prop in Hq as [Ha Ht].
  unfold link_from in *. simpl. 
  replace (link_step s a) with s; [apply IH; exact Ht |].
  destruct a as [| c r | ev]; try reflexivity; [| discriminate].
  destruct c; try reflexivity; discriminate.
Qed.

Lemma quiet_machine_from s t : forallb quiet t = true -> machine_from s t = s.
Proof.
  revert s. induction t as [|a t IH]; intros s Hq; [reflexivity |].
  simpl in Hq. apply andb_true_iff in Hq. destruct Hq as [Ha Ht].
  simpl. rewrite <- (IH s Ht) at 2. f_equal.
  destruct a as [| c r |]; [reflexivity | | discriminate].
  destruct c; try reflexivity; discriminate.
Qed.

Lemma quiet_callback_handed_out t :
  forallb quiet t = true -> callback_handed_out t = false.
Proof.
  induction t as [|a t IH]; intros Hq; [reflexivity |].
  simpl in Hq. apply andb_true_iff in Hq. destruct Hq as [Ha Ht].
  unfold callback_handed_out in *. simpl. rewrite (IH Ht), orb_false_r.
  destruct a as [| c r |]; try reflexivity.
  destruct c; try reflexivity; discriminate.
Qed.

Lemma quiet_advertise_calls t : forallb quiet t = true -> advertise_calls t = 0%nat.
Proof.
  induction t as [|a t IH]; intros Hq; simpl in *; [reflexivity |].
  apply andb_prop in Hq as [Ha Ht]. rewrite (IH Ht).
  destruct a as [| c r | ev]; try reflexivity.
  destruct c; try reflexivity; discriminate.
Qed.

Lemma quiet_hex_lines vs : forallb quiet (map hex_line vs) = true.
Proof. induction vs; simpl; auto. Qed.

(** The report loop, wherever it is started: it only adds "%x" lines. *)
Lemma log_readings_any k i w :
  exists vs, trace (world_of (log_readings k i w)) = trace w ++ map hex_line vs.
Proof.
  revert i w. induction k as [|k IH]; intros i w; simpl.
  - exists []. simpl. now rewrite app_nil_r.
  - unfold mbind, M_bind, load_reading.
    destruct ((0 <=? i) && (i <? TEMPERATURE_READINGS_BUFFER_SIZE));
      [| exists []; simpl; now rewrite app_nil_r].
    destruct (temperature_readings w !! Z.to_nat i) as [v|];
      [| exists []; simpl; now rewrite app_nil_r].
    unfold LOG, emit.
    destruct (IH (uint8 (i + 1)) (with_trace (trace w ++ [Log INFO "%x" [ArgInt v]]) w))
      as [vs Hvs].
    exists (v :: vs). rewrite Hvs. simpl. rewrite <- app_assoc. reflexivity.
Qed.

(** The report loop inside the array: it logs the slots [i .. i+k-1] and
    changes nothing else. *)
Lemma log_readings_run k i w :
  0 <= i -> i + Z.of_nat k <= TEMPERATURE_READINGS_BUFFER_SIZE ->
  length (temperature_readings w) = 10%nat ->
  log_readings k i w =
  Ok tt (with_trace
           (trace w ++ map hex_line (take k (drop (Z.to_nat i) (temperature_readings w))))
           w).
Proof.
  unfold TEMPERATURE_READINGS_BUFFER_SIZE.
  revert i w. induction k as [|k IH]; intros i w Hi Hk Hlen; simpl.
  - rewrite app_nil_r, with_trace_same. reflexivity.
  - unfold mbind, M_bind, load_reading, TEMPERATURE_READINGS_BUFFER_SIZE.
    replace ((0 <=? i) && (i <? 10)) with true
      by (symmetry; apply andb_true_intro; split; [apply Z.leb_le | apply Z.ltb_lt]; lia).
    destruct (lookup_lt_is_Some_2 (temperature_readings w) (Z.to_nat i)) as [v Hv];
      [lia |].
    rewrite Hv. unfold LOG, emit.
    replace (uint8 (i + 1)) with (i + 1)
      by (unfold uint8; rewrite Z.mod_small; lia).
    rewrite IH; simpl; try lia.
    rewrite (drop_S _ _ _ Hv). simpl.
    replace (Z.to_nat (i + 1)) with (S (Z.to_nat i)) by lia.
    rewrite <- app_assoc. reflexivity.
Qed.

Lemma task1_iteration_run w :
  sampler_ok w ->
  let s := ext_ret (trace w) get_temp_measurement in
  let i := temperature_readings_index w in
  let rs := <[Z.to_nat i := int16 s]> (temperature_readings w) in
  let t1 := trace w ++ Ext get_temp_measurement s ::
            (if i =? 9 then buffer_full :: map hex_line rs else []) in
  let d := os_time_delay (os_time_ms_to_ticks TEMPERATURE_PERIOD) in
  task1_iteration w =
  Ok tt (with_trace (t1 ++ [Ext d (ext_ret t1 d)])
           (with_index (if i =? 9 then 0 else i + 1) (with_readings rs w))).
Proof.
  intros [Hi Hlen] s i rs t1 d. unfold TEMPERATURE_READINGS_BUFFER_SIZE in Hi.
  unfold task1_iteration, mbind, M_bind, call, get_index, store_reading, set_index,
    mret, M_ret, TEMPERATURE_READINGS_BUFFER_SIZE.
  cbn [trace with_trace with_index with_readings temperature_readings
         temperature_readings_index].
  fold s. fold i.
  replace ((0 <=? i) && (i <? 10)) with true
    by (symmetry; apply andb_true_intro; split; [apply Z.leb_le | apply Z.ltb_lt];
        subst i; lia).
  cbn [trace with_trace with_index with_readings temperature_readings
         temperature_readings_index].
  fold rs.
  replace (uint8 (i + 1)) with (i + 1)
    by (unfold uint8; rewrite Z.mod_small; subst i; lia).
  subst t1. destruct (i =? 9) eqn:E9.
  - apply Z.eqb_eq in E9. rewrite E9.
    change (10 =? 9 + 1) with true. cbv beta iota.
    unfold LOG, emit.
    rewrite log_readings_run; cbn [trace with_trace with_index with_readings
         temperature_readings temperature_readings_index];
      [| lia | unfold TEMPERATURE_READINGS_BUFFER_SIZE; simpl; lia
       | subst rs; rewrite length_insert; exact Hlen].
    rewrite drop_0, take_ge
      by (subst rs; rewrite length_insert, Hlen; simpl; lia).
    unfold with_trace, with_index, with_readings; simpl.
    fold buffer_full. fold d.
    rewrite <- !app_assoc. simpl. reflexivity.
  - replace (10 =? i + 1) with false
      by (symmetry; apply Z.eqb_neq; apply Z.eqb_neq in E9; lia).
    cbn [trace with_trace with_index with_readings temperature_readings
         temperature_readings_index].
    fold d. reflexivity.
Qed.

(** From any world, an iteration only adds quiet actions to the trace. *)
Lemma task1_iteration_quiet w :
  exists ext, trace (world_of (task1_iteration w)) = trace w ++ ext /\
              forallb quiet ext = true.
Proof.
  unfold task1_iteration, mbind, M_bind, call, get_index, store_reading, set_index,
    mret, M_ret.
  cbn [trace with_trace with_index with_readings temperature_readings
         temperature_readings_index].
  set (s := ext_ret (trace w) get_temp_measurement).
  destruct ((0 <=? temperature_readings_index w)
            && (temperature_readings_index w <? TEMPERATURE_READINGS_BUFFER_SIZE)).
  2:{ exists [Ext get_temp_measurement s]. split; reflexivity. }
  cbn [trace with_trace with_index with_readings temperature_readings
         temperature_readings_index].
  destruct (TEMPERATURE_READINGS_BUFFER_SIZE
            =? uint8 (temperature_readings_index w + 1)).
  2:{ eexists [Ext get_temp_measurement s; Ext _ _]. simpl.
      rewrite <- app_assoc. split; reflexivity. }
  unfold LOG, emit.
  cbn [trace with_trace with_index with_readings temperature_readings
         temperature_readings_index].
  match goal with
  | |- context [log_readings ?k ?i ?w0] =>
      destruct (log_readings_any k i w0) as [vs Hvs];
      destruct (log_readings k i w0) as [[] w5 | f w5]
  end; simpl in Hvs |- *.
  - eexists (Ext get_temp_measurement s :: buffer_full :: map hex_line vs ++ [Ext _ _]).
    rewrite Hvs. rewrite <- !app_assoc. simpl. split; [reflexivity |].
    rewrite forallb_app, quiet_hex_lines. reflexivity.
  - exists (Ext get_temp_measurement s :: buffer_full :: map hex_line vs).
    rewrite Hvs. rewrite <- !app_assoc. simpl. split; [reflexivity |].
    apply quiet_hex_lines.
Qed.

Lemma sampler_ok_iteration w w' :
  sampler_ok w -> task1_iteration w = Ok tt w' -> sampler_ok w'.
Proof.
  intros Hok Hrun. rewrite (task1_iteration_run w Hok) in Hrun.
  injection Hrun as <-. destruct Hok as [Hi Hlen].
  unfold sampler_ok, TEMPERATURE_READINGS_BUFFER_SIZE in *. split; simpl.
  - destruct (temperature_readings_index w =? 9) eqn:E; [lia |].
    apply Z.eqb_neq in E. lia.
  - rewrite length_insert. exact Hlen.
Qed.

End SamplerFacts.

(** ** Turns of the system *)

Section TurnFacts.
Context `{Platform}.

Lemma run_turn_gap ev w :
  run_turn (Gap ev) w = Ok tt (world_of (gap_dispatch ev w)).
Proof.
  unfold run_turn, mbind, M_bind. rewrite gap_dispatch_run. reflexivity.
Qed.

Lemma link_after_sync w w' :
  on_sync w = Ok tt w' ->
  exists h, link w' = if stack_accepts h (inferred_addr_type (trace w))
                      then Advertising else link w.
Proof.
  intros Hs. pose proof (on_sync_run w) as Hr. cbv zeta in Hr.
  rewrite Hs in Hr. destruct (infer_rc (trace w) =? 0); [| discriminate].
  apply Ok_world in Hr. subst w'.
  exists (trace w ++ [Ext (ble_hs_id_infer_auto 0) (infer_rc (trace w))]).
  unfold link.
  cbn [trace with_trace with_addr_type ble_temp_addr_type].
  rewrite link_of_app, link_from_app, link_from_advertise.
  destruct (stack_accepts _ _); [reflexivity |].
  rewrite link_of_app. reflexivity.
Qed.

Lemma link_after_tick w : link (world_of (task1_iteration w)) = link w.
Proof.
  destruct (task1_iteration_quiet w) as [ext [Ht Hq]].
  unfold link. rewrite Ht, link_of_app. apply quiet_link_from. exact Hq.
Qed.

(** A sync callback that gets past its assertion has entered the
    advertise operation. *)
Lemma machine_after_sync w w' : on_sync w = Ok tt w' -> machine w' = Advertising.
Proof.
  intros Hs. pose proof (on_sync_run w) as Hr. cbv zeta in Hr.
  rewrite Hs in Hr. destruct (infer_rc (trace w) =? 0); [| discriminate].
  apply Ok_world in Hr. subst w'.
  unfold machine.
  cbn [trace with_trace with_addr_type ble_temp_addr_type].
  rewrite machine_of_app, machine_from_app, machine_from_advertise. reflexivity.
Qed.

Lemma machine_after_tick w : machine (world_of (task1_iteration w)) = machine w.
Proof.
  destruct (task1_iteration_quiet w) as [ext [Ht Hq]].
  unfold machine. rewrite Ht, machine_of_app. apply quiet_machine_from. exact Hq.
Qed.

(** The sampler does not give the callback to the host. *)
Lemma callback_handed_out_tick w :
  callback_handed_out (trace (world_of (task1_iteration w)))
  = callback_handed_out (trace w).
Proof.
  destruct (task1_iteration_quiet w) as [ext [Ht Hq]].
  rewrite Ht, callback_handed_out_app, (quiet_callback_handed_out _ Hq).
  apply orb_false_r.
Qed.

(** Along the runs the system can make, once the host has the callback the
    machine has left [Idle]: the callback is given away inside the
    advertise operation only, and GAP events arrive only afterwards. *)
Lemma callback_known_only_after_advertise w0 ts w :
  callback_handed_out (trace w0) = false ->
  reachable_run w0 ts w ->
  callback_handed_out (trace w) = true -> machine w <> Idle.
Proof.
  intros Hfresh Hrun.
  induction Hrun as [w | w ts w1 t w2 Hrun IH [Hstep Hdel]].
  - intros Hk. congruence.
  - specialize (IH Hfresh).
    inversion Hstep as [wa wb Hr | wa ev wb Hr | wa wb Hr]; subst.
    + intros _. simpl in Hr. rewrite (machine_after_sync _ _ Hr). discriminate.
    + intros _. rewrite run_turn_gap in Hr. injection Hr as <-.
      rewrite machine_after_gap.
      destruct (resumes_advertising ev); [discriminate |].
      apply (machine_never_idle_again _ [Deliver ev]). exact (IH Hdel).
    + simpl in Hr. intros Hk.
      pose proof (machine_after_tick w1) as Hm.
      pose proof (callback_handed_out_tick w1) as Hc.
      rewrite Hr in Hm, Hc. simpl in Hm, Hc. rewrite Hm. apply IH. congruence.
Qed.

Lemma advertise_calls_turn t w :
  advertise_calls (trace (world_of (run_turn t w))) =
  (advertise_calls (trace w) + if enters_advertise t w then 1 else 0)%nat.
Proof.
  destruct t as [| ev |].
  - cbn [run_turn enters_advertise].
    pose proof (on_sync_run w) as Hr. cbv zeta in Hr. rewrite Hr.
    fold (infer_rc (trace w)).
    destruct (infer_rc (trace w) =? 0);
      cbn [world_of trace with_trace with_addr_type].
    + rewrite !advertise_calls_app, advertise_calls_advertise. simpl. lia.
    + rewrite advertise_calls_app. simpl. lia.
  - rewrite run_turn_gap. cbn [world_of enters_advertise].
    rewrite gap_dispatch_run. cbn [world_of trace with_trace].
    change (Deliver ev :: ?l) with ([Deliver ev] ++ l).
    rewrite !advertise_calls_app, advertise_calls_event_log.
    destruct (resumes_advertising ev).
    + rewrite advertise_calls_advertise. simpl. lia.
    + simpl. lia.
  - cbn [run_turn enters_advertise].
    destruct (task1_iteration_quiet w) as [ext [Ht Hq]].
    rewrite Ht, advertise_calls_app, (quiet_advertise_calls _ Hq). lia.
Qed.

End TurnFacts.

(** ** The state machine along the runs the system can make *)

(** C3.  Take any run the system can make from a world in which the
    machine is Idle and the host has not been given the callback, and any
    further turn it can take, whatever the host answers.  If the turn
    enters Connected, it is the delivery of a Connect event with status 0
    and the machine was Advertising.  No turn leads from Idle to Connected;
    while the machine is Idle no GAP event arrives at all.  A Connect event
    with a non-zero status makes the handler issue a new advertise call and
    leaves the machine in Advertising. *)
Theorem connected_only_by_successful_connect `{Platform}
    (w0 : World) (ts : list turn) (w : World) (t : turn) (w' : World) :
  machine w0 = Idle -> callback_handed_out (trace w0) = false ->
  reachable_run w0 ts w -> reachable_step w t w' ->
  (machine w' = Connected -> machine w <> Connected ->
     machine w = Advertising /\ t = Gap (BLE_GAP_EVENT_CONNECT 0)) /\
  (machine w = Idle -> machine w' <> Connected /\ forall ev, t <> Gap ev) /\
  (forall status, t = Gap (BLE_GAP_EVENT_CONNECT status) -> status <> 0 ->
     let ev := BLE_GAP_EVENT_CONNECT status in
     let h := trace w ++ Deliver ev :: event_log ev in
     trace w' = h ++ advertise_actions h (ble_temp_addr_type w) /\
     advertise_calls (trace w') = S (advertise_calls (trace w)) /\
     machine w' = Advertising).
Proof.
  intros Hstart Hfresh Hrun [Hstep Hdel].
  pose proof (callback_known_only_after_advertise w0 ts w Hfresh Hrun) as Hknown.
  (* a GAP event arrives only once the machine has left Idle *)
  assert (Hgap : forall ev, t = Gap ev -> machine w <> Idle).
  { intros ev ->. apply Hknown. exact Hdel. }
  assert (Henter : machine w' = Connected -> machine w <> Connected ->
                   machine w = Advertising /\ t = Gap (BLE_GAP_EVENT_CONNECT 0)).
  { inversion Hstep as [w1 w2 Hr | w1 ev w2 Hr | w1 w2 Hr]; subst.
    - simpl in Hr. rewrite (machine_after_sync _ _ Hr). discriminate.
    - rewrite run_turn_gap in Hr. injection Hr as <-.
      rewrite machine_after_gap. intros Hc Hn.
      pose proof (Hgap ev eq_refl) as Hni.
      destruct ev as [status | reason | | h v | ty]; simpl in Hc;
        try discriminate; try contradiction.
      destruct (status =? 0) eqn:Es; simpl in Hc; [| discriminate].
      apply Z.eqb_eq in Es. subst status. split; [| reflexivity].
      destruct (machine w); [contradiction | reflexivity | contradiction].
    - simpl in Hr. intros Hc Hn.
      pose proof (machine_after_tick w) as Hl. rewrite Hr in Hl. simpl in Hl.
      congruence. }
  split; [exact Henter |]. split.
  - intros Hi. split.
    + intros Hc. destruct Henter as [Ha _]; [exact Hc | congruence | congruence].
    + intros ev Ht. exact (Hgap ev Ht Hi).
  - intros status Ht Hst. subst t.
    inversion Hstep as [| w1 ev w2 Hr |]; subst.
    rewrite run_turn_gap in Hr. injection Hr as <-.
    pose proof (machine_after_gap (BLE_GAP_EVENT_CONNECT status) w) as Hm.
    pose proof (advertise_calls_turn (Gap (BLE_GAP_EVENT_CONNECT status)) w) as Hn.
    rewrite run_turn_gap in Hn. cbn [world_of] in Hn.
    rewrite gap_dispatch_run in *. simpl in *.
    apply Z.eqb_neq in Hst. rewrite Hst in *. simpl in *.
    split; [| split].
    + rewrite <- app_assoc. reflexivity.
    + rewrite Hn. lia.
    + exact Hm.
Qed.

Lemma connected_only_by_successful_connect_witness :
  let P := sample_platform fields_only_once in
  let connect := Gap (BLE_GAP_EVENT_CONNECT 0) in
  let refused := Gap (BLE_GAP_EVENT_CONNECT 2) in
  exists w w1 w2,
    machine initial_world = Idle /\
    callback_handed_out (trace initial_world) = false /\
    @reachable_run P initial_world [Sync] w /\
    @reachable_step P w connect w1 /\
    @reachable_step P w refused w2 /\
    machine w = Advertising /\ machine w1 = Connected /\
    machine w2 = Advertising /\
    advertise_calls (trace w2) = S (advertise_calls (trace w)).
Proof.
  intros P connect refused.
  set (w := world_of (@run_turn P Sync initial_world)).
  set (w1 := world_of (@run_turn P connect w)).
  set (w2 := world_of (@run_turn P refused w)).
  assert (Hi : machine initial_world = Idle) by reflexivity.
  assert (Hf : callback_handed_out (trace initial_world) = false) by reflexivity.
  assert (Hr : @reachable_run P initial_world [Sync] w).
  { change [Sync] with ([] ++ [Sync]).
    eapply reachable_snoc; [apply reachable_nil |].
    split; [apply step_sync; vm_compute; reflexivity | exact I]. }
  assert (Hs1 : @reachable_step P w connect w1).
  { split; [apply step_gap; vm_compute; reflexivity | vm_compute; reflexivity]. }
  assert (Hs2 : @reachable_step P w refused w2).
  { split; [apply step_gap; vm_compute; reflexivity | vm_compute; reflexivity]. }
  assert (Hc : machine w1 = Connected) by (vm_compute; reflexivity).
  assert (Hn : machine w <> Connected) by (vm_compute; discriminate).
  (* the turn that enters Connected *)
  destruct (@connected_only_by_successful_connect P initial_world [Sync] w
              connect w1 Hi Hf Hr Hs1) as [Henter _].
  destruct (Henter Hc Hn) as [Ha _].
  (* the failed connect *)
  destruct (@connected_only_by_successful_connect P initial_world [Sync] w
              refused w2 Hi Hf Hr Hs2) as [_ [_ Hfail]].
  assert (H2 : 2 <> 0) by discriminate.
  destruct (Hfail 2 eq_refl H2) as [_ [Hcalls Hadv]].
  exists w, w1, w2.
  split; [exact Hi |]. split; [exact Hf |]. split; [exact Hr |].
  split; [exact Hs1 |]. split; [exact Hs2 |].
  split; [exact Ha |]. split; [exact Hc |]. split; [exact Hadv | exact Hcalls].
Defined.

(** ** Failure of the advertise operation *)

(** C5 (as amended).  When field setting returns non-zero, the advertise
    operation logs the error and returns: it makes that one call, never
    calls [ble_gap_adv_start], and changes nothing but the trace.  When
    field setting succeeds and the start returns non-zero, it logs the
    error and returns after exactly those two calls, again changing nothing
    but the trace.  The operation is entered again only by a later turn
    that calls it: the handler on a Disconnect, an Advertising-complete or
    a failed Connect event, or the sync callback once identity inference
    has succeeded. *)
Theorem advertise_failure_logged_not_retried `{Platform} :
  (forall w, set_fields_rc (trace w) <> 0 ->
     ble_temp_advertise w =
       Ok tt (with_trace
                (trace w ++ [Ext set_fields_call (set_fields_rc (trace w));
                             set_fields_error (set_fields_rc (trace w))]) w) /\
     link (world_of (ble_temp_advertise w)) = link w) /\
  (forall w, set_fields_rc (trace w) = 0 ->
     adv_start_rc (trace w) (ble_temp_addr_type w) <> 0 ->
     ble_temp_advertise w =
       Ok tt (with_trace
                (trace w ++
                 [Ext set_fields_call 0;
                  Ext (adv_start_call (ble_temp_addr_type w))
                    (adv_start_rc (trace w) (ble_temp_addr_type w));
                  adv_start_error (adv_start_rc (trace w) (ble_temp_addr_type w))])
                w) /\
     link (world_of (ble_temp_advertise w)) = link w) /\
  (forall t w,
     advertise_calls (trace (world_of (run_turn t w))) =
     (advertise_calls (trace w) + if enters_advertise t w then 1 else 0)%nat).
Proof.
  split; [| split].
  - intros w Hrc. rewrite ble_temp_advertise_run.
    unfold link. cbn [world_of trace with_trace].
    rewrite link_of_app, link_from_advertise.
    unfold advertise_actions, stack_accepts.
    apply Z.eqb_neq in Hrc. rewrite Hrc. split; reflexivity.
  - intros w Hf Hs. rewrite ble_temp_advertise_run.
    unfold link. cbn [world_of trace with_trace].
    rewrite link_of_app, link_from_advertise.
    unfold advertise_actions, stack_accepts.
    apply Z.eqb_neq in Hs. rewrite Hs, Hf. split; reflexivity.
  - apply @advertise_calls_turn.
Qed.

Lemma advertise_failure_logged_not_retried_witness :
  (set_fields_rc (H := sample_platform fields_rejected) [] <> 0 /\
   advertise_calls
     (trace (world_of (@ble_temp_advertise (sample_platform fields_rejected)
                         initial_world))) = 1%nat) /\
  (set_fields_rc (H := sample_platform start_rejected) [] = 0 /\
   adv_start_rc (H := sample_platform start_rejected) [] 0 <> 0 /\
   link (world_of (@ble_temp_advertise (sample_platform start_rejected)
                     initial_world)) = Idle).
Proof.
  split.
  - assert (Hrc : set_fields_rc (H := sample_platform fields_rejected)
                    (trace initial_world) <> 0) by discriminate.
    split; [exact Hrc |].
    destruct (@advertise_failure_logged_not_retried (sample_platform fields_rejected))
      as [H1 _].
    destruct (H1 initial_world Hrc) as [Hrun _]. rewrite Hrun. reflexivity.
  - assert (Hf : set_fields_rc (H := sample_platform start_rejected)
                   (trace initial_world) = 0) by reflexivity.
    assert (Hs : adv_start_rc (H := sample_platform start_rejected)
                   (trace initial_world) (ble_temp_addr_type initial_world) <> 0)
      by discriminate.
    split; [exact Hf |]. split; [exact Hs |].
    destruct (@advertise_failure_logged_not_retried (sample_platform start_rejected))
      as [_ [H2 _]].
    destruct (H2 initial_world Hf Hs) as [_ Hl]. exact Hl.
Defined.

(** C5, the claim as it stands, fails in its last part: a retry is not
    confined to Disconnect and Advertising-complete events.  The host
    rejects every field setting.  The attempt made at sync fails; then a
    Connect event with status 2 makes the handler enter the advertise
    operation a second time, and so does a second sync. *)
Lemma failed_connect_retries_advertise :
  let P := sample_platform fields_rejected in
  let ev := BLE_GAP_EVENT_CONNECT 2 in
  exists w1 w2 w3,
    @on_sync P initial_world = Ok tt w1 /\
    trace w1 = [Ext (ble_hs_id_infer_auto 0) 0;
                Ext (@set_fields_call P) 3;
                set_fields_error 3;
                Log INFO "adv started\n" []] /\
    advertise_calls (trace w1) = 1%nat /\
    ends_connectivity ev = false /\
    @gap_dispatch P ev w1 = Ok 0 w2 /\
    advertise_calls (trace w2) = 2%nat /\
    @on_sync P w1 = Ok tt w3 /\
    advertise_calls (trace w3) = 2%nat.
Proof.
  intros P ev.
  exists (world_of (@on_sync P initial_world)).
  exists (world_of (@gap_dispatch P ev (world_of (@on_sync P initial_world)))).
  exists (world_of (@on_sync P (world_of (@on_sync P initial_world)))).
  repeat split; reflexivity.
Qed.

(** ** The sampler over many iterations *)

Section SamplerRuns.
Context `{Platform}.

Lemma reports_tick_plain t s c r :
  reports (t ++ [Ext get_temp_measurement s; Ext c r]) = reports t.
Proof. unfold reports. rewrite reports_from_app. reflexivity. Qed.

Lemma reports_tick_flush t s vs c r :
  reports (t ++ Ext get_temp_measurement s :: buffer_full :: map hex_line vs
             ++ [Ext c r])
  = reports t ++ [vs].
Proof.
  unfold reports. rewrite reports_from_app.
  change (Ext get_temp_measurement s :: buffer_full :: map hex_line vs ++ [Ext c r])
    with ([Ext get_temp_measurement s; buffer_full] ++ map hex_line vs ++ [Ext c r]).
  rewrite reports_from_app.
  change (reports_from (reports_from [] t) [Ext get_temp_measurement s; buffer_full])
    with ([] :: reports_from [] t).
  rewrite reports_from_app, reports_from_hex_lines, app_nil_r.
  change (reports_from (rev vs :: reports_from [] t) [Ext c r])
    with (rev vs :: reports_from [] t).
  simpl. rewrite rev_involutive. reflexivity.
Qed.

(** The trace of an iteration, sorted by what it shows. *)
Lemma task1_iteration_trace w w' :
  sampler_ok w -> task1_iteration w = Ok tt w' ->
  let s := ext_ret (trace w) get_temp_measurement in
  let i := temperature_readings_index w in
  samples_read (trace w') = samples_read (trace w) ++ [s] /\
  delays (trace w') = delays (trace w) ++ [os_time_ms_to_ticks TEMPERATURE_PERIOD] /\
  reports (trace w')
    = reports (trace w) ++ (if i =? 9 then [temperature_readings w'] else []) /\
  temperature_readings w' = <[Z.to_nat i := int16 s]> (temperature_readings w) /\
  temperature_readings_index w' = (if i =? 9 then 0 else i + 1).
Proof.
  intros Hok Hrun s i. rewrite (task1_iteration_run w Hok) in Hrun.
  apply Ok_world in Hrun. subst w'. fold s. fold i.
  cbn [trace with_trace with_index with_readings temperature_readings
         temperature_readings_index].
  destruct (i =? 9).
  - rewrite <- app_assoc. cbn [app].
    rewrite reports_tick_flush.
    change (Ext get_temp_measurement s :: ?l) with ([Ext get_temp_measurement s] ++ l).
    change (buffer_full :: ?l) with ([buffer_full] ++ l).
    rewrite !samples_read_app, !delays_app, samples_read_hex_lines, delays_hex_lines.
    simpl. rewrite ?app_nil_r. repeat split; reflexivity.
  - rewrite <- app_assoc. cbn [app].
    rewrite reports_tick_plain, samples_read_app, delays_app. simpl.
    rewrite ?app_nil_r. repeat split; reflexivity.
Qed.

Lemma sampler_inv_initial : sampler_inv 0 initial_world.
Proof.
  exists 0%nat, 0%nat. repeat split; try reflexivity; try lia.
  constructor.
Qed.

Lemma sampler_inv_iteration n w w' :
  sampler_inv n w -> task1_iteration w = Ok tt w' -> sampler_inv (S n) w'.
Proof.
  intros (q & r & Hn & Hr & Hok & Hidx & Hlen & Hslots & Hq & Hall & Hcat & Hdel) Hrun.
  pose proof (sampler_ok_iteration _ _ Hok Hrun) as Hok'.
  destruct (task1_iteration_trace _ _ Hok Hrun) as (Hs & Hd & Hrep & Hrd & Hi).
  set (s := ext_ret (trace w) get_temp_measurement) in *.
  set (S16 := map int16 (samples_read (trace w))) in *.
  assert (HS16 : length S16 = n) by (subst S16; now rewrite length_map).
  assert (Hs16 : map int16 (samples_read (trace w')) = S16 ++ [int16 s])
    by (rewrite Hs, map_app; reflexivity).
  destruct Hok as [_ Hlen10].
  rewrite Hidx in Hrd, Hrep, Hi. rewrite Nat2Z.id in Hrd.
  assert (Htake : take (S r) (temperature_readings w')
                  = drop (10 * q) S16 ++ [int16 s]).
  { rewrite Hrd.
    rewrite (take_S_r _ _ (int16 s))
      by (apply list_lookup_insert_eq; lia).
    rewrite take_insert_ge by lia. rewrite Hslots. reflexivity. }
  destruct (Nat.eq_dec r 9%nat) as [-> | Hne].
  - (* the tenth sample: a report, then the index returns to 0 *)
    change (Z.of_nat 9 =? 9) with true in *. cbv beta iota in *.
    assert (Hfull : temperature_readings w' = drop (10 * q) S16 ++ [int16 s]).
    { rewrite <- Htake. symmetry. apply take_ge.
      destruct Hok' as [_ Hl]. rewrite Hl. lia. }
    assert (Hdel' : delays (trace w')
                    = replicate (S n) (os_time_ms_to_ticks TEMPERATURE_PERIOD)).
    { rewrite Hd, Hdel. change (S n) with (1 + n)%nat.
      rewrite Nat.add_comm, replicate_add. reflexivity. }
    exists (S q), 0%nat.
    split; [lia |]. split; [lia |]. split; [exact Hok' |]. split; [exact Hi |].
    split; [rewrite Hs, length_app; simpl; lia |].
    split.
    { rewrite Hs16. simpl take. symmetry. apply drop_ge.
      rewrite length_app. simpl. lia. }
    split; [rewrite Hrep, length_app; simpl; lia |].
    split.
    { rewrite Hrep. apply Forall_app. split; [exact Hall |].
      constructor; [apply Hok' | constructor]. }
    split; [| exact Hdel'].
    rewrite Hrep, concat_app, Hcat, Hs16. simpl. rewrite app_nil_r, Hfull.
    rewrite app_assoc, take_drop.
    symmetry. apply take_ge. rewrite length_app. simpl. lia.
  - (* an ordinary sample *)
    assert (E9 : (Z.of_nat r =? 9) = false) by (apply Z.eqb_neq; lia).
    rewrite E9 in *.
    assert (Hdel' : delays (trace w')
                    = replicate (S n) (os_time_ms_to_ticks TEMPERATURE_PERIOD)).
    { rewrite Hd, Hdel. change (S n) with (1 + n)%nat.
      rewrite Nat.add_comm, replicate_add. reflexivity. }
    exists q, (S r).
    split; [lia |]. split; [lia |]. split; [exact Hok' |].
    split; [rewrite Hi; lia |].
    split; [rewrite Hs, length_app; simpl; lia |].
    split; [rewrite Hs16, Htake; rewrite drop_app_le by lia; reflexivity |].
    split; [rewrite Hrep, app_nil_r; exact Hq |].
    split; [rewrite Hrep, app_nil_r; exact Hall |].
    split; [| exact Hdel'].
    rewrite Hrep, app_nil_r, Hcat, Hs16. rewrite take_app_le by lia. reflexivity.
Qed.

(** The task never leaves the array: every iteration completes. *)
Lemma task1_handler_total n :
  exists w, task1_handler n initial_world = Ok tt w /\ sampler_inv n w.
Proof.
  induction n as [|n [w [Hrun Hinv]]].
  - exists initial_world. split; [reflexivity | apply sampler_inv_initial].
  - destruct Hinv as (q & r & Hinv).
    assert (Hok : sampler_ok w) by apply Hinv.
    pose proof (task1_iteration_run w Hok) as Hit. cbv zeta in Hit.
    eexists. split.
    + simpl. unfold mbind, M_bind. rewrite Hrun. exact Hit.
    + eapply sampler_inv_iteration; [exists q, r; exact Hinv | exact Hit].
Qed.

Lemma task1_handler_S n w :
  task1_handler n initial_world = Ok tt w ->
  task1_handler (S n) initial_world = task1_iteration w.
Proof. intros Hrun. simpl. unfold mbind, M_bind. rewrite Hrun. reflexivity. Qed.

End SamplerRuns.

Section SamplerClaims.
Context `{Platform}.

Lemma sampler_inv_div_mod n w :
  sampler_inv n w ->
  temperature_readings_index w = Z.of_nat (n mod 10) /\
  length (reports (trace w)) = (n / 10)%nat /\
  concat (reports (trace w))
    = take (10 * (n / 10)) (map int16 (samples_read (trace w))) /\
  take (n mod 10) (temperature_readings w)
    = drop (10 * (n / 10)) (map int16 (samples_read (trace w))).
Proof.
  intros (q & r & Hn & Hr & Hok & Hidx & Hlen & Hslots & Hq & Hall & Hcat & Hdel).
  assert (Hdiv : (n / 10 = q)%nat)
    by (symmetry; apply (Nat.div_unique n 10 q r); lia).
  assert (Hmod : (n mod 10 = r)%nat)
    by (symmetry; apply (Nat.mod_unique n 10 q r); lia).
  rewrite Hdiv, Hmod. repeat split; assumption.
Qed.

(** When the index is 9, the array after the iteration is the last ten
    samples, oldest first. *)
Lemma last_ten_samples n w w' :
  sampler_inv n w -> task1_iteration w = Ok tt w' ->
  temperature_readings_index w = 9 ->
  temperature_readings w'
    = drop (n - 9) (map int16 (samples_read (trace w'))).
Proof.
  intros Hinv Hrun H9.
  pose proof (sampler_inv_iteration _ _ _ Hinv Hrun) as Hinv'.
  destruct (sampler_inv_div_mod _ _ Hinv) as (Hidx & _ & _ & _).
  destruct (sampler_inv_div_mod _ _ Hinv') as (_ & Hq' & Hcat' & _).
  destruct Hinv as (q & r & Hn & Hr & Hok & _ & Hlen & _ & Hq & _ & Hcat & _).
  destruct Hinv' as (_ & _ & _ & _ & _ & _ & Hlen' & _).
  destruct (task1_iteration_trace _ _ Hok Hrun) as (Hs & _ & Hrep & _ & _).
  rewrite H9 in Hrep. change (9 =? 9) with true in Hrep. cbv iota in Hrep.
  assert (Hm : (n mod 10 = 9)%nat) by lia.
  assert (Hr9 : r = 9%nat) by
    (rewrite <- Hm; apply (Nat.mod_unique n 10 q r); lia).
  subst r.
  set (S' := map int16 (samples_read (trace w'))) in *.
  assert (HlenS' : length S' = S n) by (subst S'; now rewrite length_map).
  assert (Hdiv' : (S n / 10 = S q)%nat)
    by (symmetry; apply (Nat.div_unique (S n) 10 (S q) 0); lia).
  rewrite Hdiv' in Hcat'.
  rewrite Hrep, concat_app, Hcat in Hcat'. cbn [concat] in Hcat'.
  rewrite app_nil_r in Hcat'.
  rewrite (take_ge S') in Hcat' by lia.
  assert (Hpre : take (10 * q) (map int16 (samples_read (trace w)))
                 = take (10 * q) S').
  { subst S'. rewrite Hs, map_app.
    rewrite take_app_le by (rewrite length_map; lia). reflexivity. }
  rewrite Hpre in Hcat'.
  rewrite <- (take_drop (10 * q) S') in Hcat' at 2.
  apply app_inv_head in Hcat'. rewrite Hcat'.
  f_equal. lia.
Qed.

End SamplerClaims.

(** C1.  The task runs for any number of iterations without leaving the
    array.  Between iterations the index is [n mod 10], hence an insertion
    point in 0..9.  After [n] iterations exactly [n / 10] reports have been
    made, each of ten samples, and laid end to end they are the first
    [10 * (n / 10)] samples in the order they were read: every report
    follows ten new samples and no sample is reported twice.  The next
    iteration reports exactly when the index stands at 9 (nine samples
    since the last report); the report is then the last ten samples in
    insertion order and the index returns to 0; otherwise nothing is
    reported and the index moves up by one. *)
Theorem buffer_wrap_invariant `{Platform} (n : nat) :
  exists w w',
    task1_handler n initial_world = Ok tt w /\
    task1_handler (S n) initial_world = Ok tt w' /\
    0 <= temperature_readings_index w < TEMPERATURE_READINGS_BUFFER_SIZE /\
    temperature_readings_index w = Z.of_nat (n mod 10) /\
    length (samples_read (trace w)) = n /\
    length (reports (trace w)) = (n / 10)%nat /\
    Forall (fun rep => length rep = 10%nat) (reports (trace w)) /\
    concat (reports (trace w))
      = take (10 * (n / 10)) (map int16 (samples_read (trace w))) /\
    (temperature_readings_index w = 9 ->
       reports (trace w')
         = reports (trace w)
           ++ [drop (n - 9) (map int16 (samples_read (trace w')))] /\
       temperature_readings_index w' = 0) /\
    (temperature_readings_index w <> 9 ->
       reports (trace w') = reports (trace w) /\
       temperature_readings_index w' = temperature_readings_index w + 1).
Proof.
  destruct (task1_handler_total n) as [w [Hrun Hinv]].
  destruct (task1_handler_total (S n)) as [w' [Hrun' Hinv']].
  assert (Hit : task1_iteration w = Ok tt w')
    by (rewrite <- (task1_handler_S n w Hrun); exact Hrun').
  destruct (sampler_inv_div_mod _ _ Hinv) as (Hidx & Hq & Hcat & _).
  pose proof Hinv as (q & r & _ & _ & Hok & _ & Hlen & _ & _ & Hall & _ & _).
  destruct (task1_iteration_trace _ _ Hok Hit) as (_ & _ & Hrep & _ & Hi).
  exists w, w'.
  split; [exact Hrun |]. split; [exact Hrun' |]. split; [apply Hok |].
  split; [exact Hidx |]. split; [exact Hlen |]. split; [exact Hq |].
  split; [exact Hall |]. split; [exact Hcat |]. split.
  - intros H9. rewrite <- (last_ten_samples n w w' Hinv Hit H9).
    rewrite H9 in Hrep, Hi. split; [exact Hrep | exact Hi].
  - intros Hn9. apply Z.eqb_neq in Hn9. rewrite Hn9 in Hrep, Hi.
    rewrite app_nil_r in Hrep. split; [exact Hrep | exact Hi].
Qed.

Lemma buffer_wrap_invariant_witness :
  let P := sample_platform all_succeed in
  (exists w w',
     @task1_handler P 9 initial_world = Ok tt w /\
     @task1_handler P 10 initial_world = Ok tt w' /\
     temperature_readings_index w = 9 /\
     reports (trace w')
       = [[2000; 2001; 2002; 2003; 2004; 2005; 2006; 2007; 2008; 2009]] /\
     temperature_readings_index w' = 0) /\
  (exists w w',
     @task1_handler P 3 initial_world = Ok tt w /\
     @task1_handler P 4 initial_world = Ok tt w' /\
     temperature_readings_index w <> 9 /\
     reports (trace w') = [] /\
     temperature_readings_index w' = 4).
Proof.
  intros P. split.
  - destruct (@buffer_wrap_invariant P 9)
      as (w & w' & Hrun & Hrun' & _ & Hidx & _ & _ & _ & _ & Hfull & _).
    assert (H9 : temperature_readings_index w = 9) by exact Hidx.
    destruct (Hfull H9) as [Hrep Hi].
    exists w, w'. split; [exact Hrun |]. split; [exact Hrun' |].
    split; [exact H9 |]. split; [| exact Hi].
    assert (Hw : w = world_of (@task1_handler P 9 initial_world))
      by (rewrite Hrun; reflexivity).
    assert (Hw' : w' = world_of (@task1_handler P 10 initial_world))
      by (rewrite Hrun'; reflexivity).
    rewrite Hrep, Hw, Hw'. vm_compute. reflexivity.
  - destruct (@buffer_wrap_invariant P 3)
      as (w & w' & Hrun & Hrun' & _ & Hidx & _ & _ & _ & _ & _ & Hplain).
    assert (H3 : temperature_readings_index w = 3) by exact Hidx.
    assert (Hn9 : temperature_readings_index w <> 9) by (rewrite H3; discriminate).
    destruct (Hplain Hn9) as [Hrep Hi].
    exists w, w'. split; [exact Hrun |]. split; [exact Hrun' |].
    split; [exact Hn9 |]. split.
    + assert (Hw : w = world_of (@task1_handler P 3 initial_world))
        by (rewrite Hrun; reflexivity).
      rewrite Hrep, Hw. vm_compute. reflexivity.
    + rewrite Hi, H3. reflexivity.
Defined.

(** C8.  Every iteration of the sampler, whether or not it reports, ends
    with one request to the scheduler for a delay of the fixed period, 100
    milliseconds converted to ticks.  An iteration is: one sensor reading,
    log lines only (none unless the buffer is full), then that request.
    After [n] iterations the scheduler has been asked [n] times, each time
    for the same delay. *)
Theorem every_iteration_ends_with_fixed_delay `{Platform} (n : nat) :
  exists w w' s body r,
    task1_handler n initial_world = Ok tt w /\
    task1_iteration w = Ok tt w' /\
    task1_handler (S n) initial_world = Ok tt w' /\
    trace w' = trace w ++ Ext get_temp_measurement s :: body
                 ++ [Ext (os_time_delay (os_time_ms_to_ticks TEMPERATURE_PERIOD)) r] /\
    body = (if temperature_readings_index w =? 9
            then buffer_full :: map hex_line (temperature_readings w')
            else []) /\
    delays body = [] /\
    TEMPERATURE_PERIOD = 100 /\
    delays (trace w') = replicate (S n) (os_time_ms_to_ticks 100).
Proof.
  destruct (task1_handler_total n) as [w [Hrun Hinv]].
  destruct (task1_handler_total (S n)) as [w' [Hrun' Hinv']].
  assert (Hit : task1_iteration w = Ok tt w')
    by (rewrite <- (task1_handler_S n w Hrun); exact Hrun').
  pose proof Hinv as (q & r & _ & _ & Hok & _).
  pose proof Hinv' as (q' & r' & _ & _ & _ & _ & _ & _ & _ & _ & _ & Hdel).
  pose proof (task1_iteration_run w Hok) as Hr. cbv zeta in Hr.
  rewrite Hit in Hr. apply Ok_world in Hr.
  exists w, w'. eexists. eexists. eexists.
  split; [exact Hrun |]. split; [exact Hit |]. split; [exact Hrun' |].
  split.
  { rewrite Hr at 1. cbn [trace with_trace]. rewrite <- app_assoc. reflexivity. }
  split.
  { rewrite Hr. cbn [temperature_readings with_trace with_index with_readings].
    reflexivity. }
  split.
  { destruct (temperature_readings_index w =? 9); [| reflexivity].
    change (buffer_full :: ?l) with ([buffer_full] ++ l).
    rewrite delays_app, delays_hex_lines. reflexivity. }
  split; [reflexivity | exact Hdel].
Qed.

(** C10.  An iteration replaces the slot under the index by the new sample
    and leaves every other slot as it was, also when it reports: the flush
    only resets the index.  Right after a report the array still holds,
    slot by slot, the ten samples that were reported. *)
Theorem flush_resets_only_the_index `{Platform} (n : nat) :
  exists w w',
    task1_handler n initial_world = Ok tt w /\
    task1_iteration w = Ok tt w' /\
    temperature_readings w'
      = <[Z.to_nat (temperature_readings_index w)
          := int16 (ext_ret (trace w) get_temp_measurement)]>
          (temperature_readings w) /\
    (forall j : nat,
       j <> Z.to_nat (temperature_readings_index w) ->
       temperature_readings w' !! j = temperature_readings w !! j) /\
    (temperature_readings_index w = 9 ->
       temperature_readings_index w' = 0 /\
       reports (trace w') = reports (trace w) ++ [temperature_readings w'] /\
       exists r,
         trace w' = trace w
           ++ Ext get_temp_measurement (ext_ret (trace w) get_temp_measurement)
           :: buffer_full :: map hex_line (temperature_readings w')
           ++ [Ext (os_time_delay (os_time_ms_to_ticks TEMPERATURE_PERIOD)) r]).
Proof.
  destruct (task1_handler_total n) as [w [Hrun Hinv]].
  destruct (task1_handler_total (S n)) as [w' [Hrun' Hinv']].
  assert (Hit : task1_iteration w = Ok tt w')
    by (rewrite <- (task1_handler_S n w Hrun); exact Hrun').
  pose proof Hinv as (q & r & _ & _ & Hok & _).
  destruct (task1_iteration_trace _ _ Hok Hit) as (_ & _ & Hrep & Hrd & Hi).
  pose proof (task1_iteration_run w Hok) as Hr. cbv zeta in Hr.
  rewrite Hit in Hr. apply Ok_world in Hr.
  exists w, w'. split; [exact Hrun |]. split; [exact Hit |].
  split; [exact Hrd |]. split.
  - intros j Hj. rewrite Hrd. apply list_lookup_insert_ne. congruence.
  - intros H9. rewrite H9 in Hrep, Hi. split; [exact Hi |]. split; [exact Hrep |].
    eexists. rewrite Hr at 1. rewrite H9.
    cbn [trace with_trace]. rewrite <- app_assoc.
    rewrite Hrd, H9. reflexivity.
Qed.

Lemma flush_resets_only_the_index_witness :
  let P := sample_platform all_succeed in
  exists w w',
    @task1_handler P 9 initial_world = Ok tt w /\
    @task1_iteration P w = Ok tt w' /\
    temperature_readings_index w = 9 /\
    temperature_readings_index w' = 0 /\
    temperature_readings w'
      = [2000; 2001; 2002; 2003; 2004; 2005; 2006; 2007; 2008; 2009] /\
    temperature_readings w' !! 3%nat = temperature_readings w !! 3%nat.
Proof.
  intros P.
  destruct (@flush_resets_only_the_index P 9)
    as (w & w' & Hrun & Hit & Hrd & Hother & Hflush).
  assert (Hw : w = world_of (@task1_handler P 9 initial_world))
    by (rewrite Hrun; reflexivity).
  assert (H9 : temperature_readings_index w = 9) by (rewrite Hw; reflexivity).
  assert (H3 : 3%nat <> Z.to_nat (temperature_readings_index w))
    by (rewrite H9; discriminate).
  destruct (Hflush H9) as [Hi _].
  exists w, w'. split; [exact Hrun |]. split; [exact Hit |].
  split; [exact H9 |]. split; [exact Hi |]. split; [| exact (Hother 3%nat H3)].
  rewrite Hrd, Hw. vm_compute. reflexivity.
Defined.

(** ** The sampler next to the advertising side *)

Section Interleaving.
Context `{Platform}.

Lemma not_sampler_frame t ext :
  forallb not_sampler ext = true ->
  samples_read (t ++ ext) = samples_read t /\
  delays (t ++ ext) = delays t /\
  reports (t ++ ext) = reports t.
Proof.
  intros Hq.
  assert (Hs : samples_read ext = [] /\ delays ext = [] /\
               forall rs, reports_from rs ext = rs).
  { induction ext as [|a ext IH]; [repeat split; reflexivity |].
    simpl in Hq. apply andb_prop in Hq as [Ha Hext].
    destruct (IH Hext) as (IH1 & IH2 & IH3).
    assert (Hstep : forall rs, report_step rs a = rs).
    { intros rs. unfold report_step.
      destruct a as [lvl fmt args | c r | ev]; [| reflexivity | reflexivity].
      cbn [not_sampler] in Ha. apply andb_prop in Ha as [Hb Hh].
      apply negb_true_iff in Hb. rewrite Hb.
      destruct (hex_value (Log lvl fmt args)); [discriminate | reflexivity]. }
    split; [| split].
    - destruct a as [| c r |]; try exact IH1. destruct c; try exact IH1; discriminate.
    - destruct a as [| c r |]; try exact IH2. destruct c; try exact IH2; discriminate.
    - intros rs. unfold reports_from in *. simpl. rewrite Hstep. apply IH3. }
  destruct Hs as (Hs1 & Hs2 & Hs3).
  rewrite samples_read_app, delays_app, Hs1, Hs2, !app_nil_r.
  unfold reports. rewrite reports_from_app, Hs3. repeat split.
Qed.

Lemma not_sampler_advertise t a : forallb not_sampler (advertise_actions t a) = true.
Proof.
  unfold advertise_actions. simpl.
  destruct (set_fields_rc t =? 0); simpl; [| reflexivity].
  destruct (adv_start_rc t a =? 0); reflexivity.
Qed.

Lemma not_sampler_event_log ev : forallb not_sampler (event_log ev) = true.
Proof. destruct ev; reflexivity. Qed.

(** The sync callback and the GAP handler leave the sampler's array and
    index alone, and nothing they add to the trace reads as a sample, a
    delay request or part of a report. *)
Lemma sampler_frame t w :
  t <> Tick ->
  let w' := world_of (run_turn t w) in
  temperature_readings w' = temperature_readings w /\
  temperature_readings_index w' = temperature_readings_index w /\
  samples_read (trace w') = samples_read (trace w) /\
  delays (trace w') = delays (trace w) /\
  reports (trace w') = reports (trace w).
Proof.
  intros Ht. destruct t as [| ev |]; [| | contradiction]; cbv zeta.
  - cbn [run_turn]. pose proof (on_sync_run w) as Hr. cbv zeta in Hr. rewrite Hr.
    destruct (infer_rc (trace w) =? 0);
      cbn [world_of trace with_trace with_addr_type temperature_readings
             temperature_readings_index];
      (split; [reflexivity |]); (split; [reflexivity |]).
    + rewrite <- app_assoc. apply not_sampler_frame.
      rewrite !forallb_app, not_sampler_advertise. reflexivity.
    + apply not_sampler_frame. reflexivity.
  - rewrite run_turn_gap. cbn [world_of]. rewrite gap_dispatch_run.
    cbn [world_of trace with_trace temperature_readings temperature_readings_index].
    split; [reflexivity |]. split; [reflexivity |].
    apply not_sampler_frame.
    change (Deliver ev :: ?l) with ([Deliver ev] ++ l).
    rewrite !forallb_app, not_sampler_event_log.
    destruct (resumes_advertising ev); [rewrite not_sampler_advertise |]; reflexivity.
Qed.

(** Along every run of the system the sampler is where its own iterations
    have brought it, however they are interleaved with sync and GAP
    turns; and its next iteration can always be taken. *)
Lemma sampler_inv_along_runs ts w :
  run initial_world ts w ->
  sampler_inv (ticks ts) w /\ exists w', step w Tick w'.
Proof.
  intros Hrun.
  assert (Hinv : sampler_inv (ticks ts) w).
  { remember initial_world as w0 eqn:E0.
    induction Hrun as [| w0 ts w1 t w2 Hrun IH Hstep]; subst.
    - apply sampler_inv_initial.
    - assert (Hticks : ticks (ts ++ [t])
                       = (ticks ts + match t with Tick => 1 | _ => 0 end)%nat).
      { clear. induction ts as [|t0 ts IH]; simpl.
        - destruct t; reflexivity.
        - destruct t0; rewrite IH; reflexivity. }
      rewrite Hticks. specialize (IH eq_refl).
      inversion Hstep as [wa wb Hr | wa ev wb Hr | wa wb Hr]; subst.
      + assert (Hne : Sync <> Tick) by discriminate.
        pose proof (sampler_frame Sync w1 Hne) as Hf. cbv zeta in Hf.
        rewrite Hr in Hf. cbn [world_of] in Hf.
        destruct Hf as (F1 & F2 & F3 & F4 & F5).
        rewrite Nat.add_0_r.
        destruct IH as (q & r & I1 & I2 & [I3 I3'] & I4 & I5 & I6 & I7 & I8 & I9 & I10).
        exists q, r. unfold sampler_ok.
        rewrite F1, F2, F3, F4, F5. repeat split; solve [assumption | apply I3].
      + assert (Hne : Gap ev <> Tick) by discriminate.
        pose proof (sampler_frame (Gap ev) w1 Hne) as Hf. cbv zeta in Hf.
        rewrite Hr in Hf. cbn [world_of] in Hf.
        destruct Hf as (F1 & F2 & F3 & F4 & F5).
        rewrite Nat.add_0_r.
        destruct IH as (q & r & I1 & I2 & [I3 I3'] & I4 & I5 & I6 & I7 & I8 & I9 & I10).
        exists q, r. unfold sampler_ok.
        rewrite F1, F2, F3, F4, F5. repeat split; solve [assumption | apply I3].
      + rewrite Nat.add_1_r. eapply sampler_inv_iteration; [exact IH | exact Hr]. }
  split; [exact Hinv |].
  destruct Hinv as (q & r & _ & _ & Hok & _).
  pose proof (task1_iteration_run w Hok) as Hit. cbv zeta in Hit.
  eexists. apply step_tick. exact Hit.
Qed.

End Interleaving.

(** * Further properties *)

(** ** The array as a ring of the last ten samples *)

Section Ring.
Context `{Platform}.

Lemma int16_is_int16 z : is_int16 (int16 z).
Proof.
  unfold is_int16, int16.
  pose proof (Z.mod_pos_bound (z + 32768) 65536 ltac:(lia)). lia.
Qed.

Lemma int16_in_range z : is_int16 z -> int16 z = z.
Proof.
  unfold is_int16, int16. intros Hz. rewrite Z.mod_small; lia.
Qed.

Lemma map_int16_in_range l : Forall is_int16 l -> map int16 l = l.
Proof.
  induction 1 as [|z l Hz _ IH]; simpl; [reflexivity |].
  rewrite IH, (int16_in_range z Hz). reflexivity.
Qed.

Lemma mod10_distinct (k n : nat) :
  (k < n)%nat -> (n <= k + 9)%nat -> (k mod 10 <> n mod 10)%nat.
Proof.
  intros Hk Hn Heq.
  pose proof (Nat.div_mod_eq k 10). pose proof (Nat.div_mod_eq n 10).
  lia.
Qed.

Lemma Forall_concat_inv {A} (P : A -> Prop) (ls : list (list A)) :
  Forall P (concat ls) -> Forall (Forall P) ls.
Proof.
  induction ls as [|l ls IH]; simpl; intros Hc; [constructor |].
  apply Forall_app in Hc as [Hl Hls]. constructor; [exact Hl | apply IH, Hls].
Qed.

(** After [n] iterations sample number [k] (counted from 0) sits in slot
    [k mod 10] as long as it is among the last ten, and a slot that was
    never written still holds its initial 0. *)
Lemma ring_after n :
  exists w,
    task1_handler n initial_world = Ok tt w /\
    sampler_inv n w /\
    Forall is_int16 (temperature_readings w) /\
    (forall k : nat, (k < n)%nat -> (n <= k + 10)%nat ->
       temperature_readings w !! (k mod 10)%nat
         = map int16 (samples_read (trace w)) !! k) /\
    (forall j : nat, (n <= j)%nat -> (j < 10)%nat ->
       temperature_readings w !! j = Some 0).
Proof.
  induction n as [|n (w & Hrun & Hinv & Hrange & Hlast & Hfresh)].
  - exists initial_world. split; [reflexivity |].
    split; [apply sampler_inv_initial |]. split.
    { apply Forall_replicate. unfold is_int16. lia. }
    split; [intros k Hk; lia |].
    intros j _ Hj.
    change (temperature_readings initial_world) with (replicate 10 0).
    apply lookup_replicate_2. exact Hj.
  - destruct (sampler_inv_div_mod _ _ Hinv) as (Hidx & _).
    pose proof Hinv as (q & r & _ & _ & Hok & _ & Hlen & _).
    pose proof (task1_iteration_run w Hok) as Hit. cbv zeta in Hit.
    match type of Hit with _ = Ok tt ?x => set (w' := x) in * end.
    clearbody w'.
    destruct (task1_iteration_trace _ _ Hok Hit) as (Hs & _ & _ & Hrd & _).
    rewrite Hidx, Nat2Z.id in Hrd.
    destruct Hok as [_ Hlen10].
    assert (HlenS : length (map int16 (samples_read (trace w))) = n)
      by (rewrite length_map; exact Hlen).
    exists w'. split; [rewrite (task1_handler_S n w Hrun); exact Hit |].
    split; [eapply sampler_inv_iteration; [exact Hinv | exact Hit] |].
    split; [rewrite Hrd; apply Forall_insert; [exact Hrange | apply int16_is_int16] |].
    split.
    + intros k Hk Hten. rewrite Hs, map_app. simpl map.
      destruct (Nat.eq_dec k n) as [-> | Hne].
      * rewrite Hrd, list_lookup_insert_eq
          by (rewrite Hlen10; apply Nat.mod_upper_bound; lia).
        symmetry. apply list_lookup_middle. symmetry. exact HlenS.
      * rewrite Hrd, list_lookup_insert_ne
          by (apply not_eq_sym, mod10_distinct; lia).
        rewrite lookup_app_l by lia. apply Hlast; lia.
    + intros j Hj Hj10. rewrite Hrd, list_lookup_insert_ne
        by (rewrite Nat.mod_small; lia).
      apply Hfresh; lia.
Qed.

End Ring.

(** X9.  The array is a ring over the samples: after any number [n] of
    iterations, each of the last ten samples is found in the slot given by
    its number modulo 10 (older samples have been overwritten), and as long
    as fewer than ten samples have arrived the slots not yet written hold
    the initial 0. *)
Theorem array_holds_last_ten_samples `{Platform} (n : nat) :
  exists w,
    task1_handler n initial_world = Ok tt w /\
    length (samples_read (trace w)) = n /\
    (forall k : nat, (k < n)%nat -> (n <= k + 10)%nat ->
       exists s, samples_read (trace w) !! k = Some s /\
                 temperature_readings w !! (k mod 10)%nat = Some (int16 s)) /\
    (forall j : nat, (n <= j)%nat -> (j < 10)%nat ->
       temperature_readings w !! j = Some 0).
Proof.
  destruct (ring_after n) as (w & Hrun & Hinv & _ & Hlast & Hfresh).
  pose proof Hinv as (q & r & _ & _ & _ & _ & Hlen & _).
  exists w. split; [exact Hrun |]. split; [exact Hlen |]. split; [| exact Hfresh].
  intros k Hk Hten.
  destruct (lookup_lt_is_Some_2 (samples_read (trace w)) k) as [s Hs]; [lia |].
  exists s. split; [exact Hs |].
  rewrite (Hlast k Hk Hten).
  change (map int16 (samples_read (trace w))) with (int16 <$> samples_read (trace w)).
  rewrite list_lookup_fmap, Hs. reflexivity.
Qed.

Lemma array_holds_last_ten_samples_witness :
  let P := sample_platform all_succeed in
  exists w,
    @task1_handler P 13 initial_world = Ok tt w /\
    temperature_readings w !! 2%nat = Some 2012 /\
    temperature_readings w !! 7%nat = Some 2007 /\
    (exists w0, @task1_handler P 4 initial_world = Ok tt w0 /\
                temperature_readings w0 !! 6%nat = Some 0).
Proof.
  intros P.
  destruct (@array_holds_last_ten_samples P 13) as (w & Hrun & _ & Hlast & _).
  destruct (@array_holds_last_ten_samples P 4) as (w0 & Hrun0 & _ & _ & Hfresh).
  assert (Hw : w = world_of (@task1_handler P 13 initial_world))
    by (rewrite Hrun; reflexivity).
  exists w. split; [exact Hrun |].
  split.
  { destruct (Hlast 12%nat ltac:(lia) ltac:(lia)) as (s & Hs & Hslot).
    change (12 mod 10)%nat with 2%nat in Hslot. rewrite Hslot. f_equal.
    rewrite Hw in Hs. vm_compute in Hs. injection Hs as <-. reflexivity. }
  split.
  { destruct (Hlast 7%nat ltac:(lia) ltac:(lia)) as (s & Hs & Hslot).
    change (7 mod 10)%nat with 7%nat in Hslot. rewrite Hslot. f_equal.
    rewrite Hw in Hs. vm_compute in Hs. injection Hs as <-. reflexivity. }
  exists w0. split; [exact Hrun0 |]. apply Hfresh; lia.
Defined.

(** X10.  Whatever the driver returns, every slot of the array and every
    reported value is an [int16_t] value.  When the driver's readings are
    themselves in that range they are stored and reported unchanged: the
    reports, end to end, are then the first [10 * (n / 10)] readings as
    the driver gave them. *)
Theorem stored_samples_are_int16 `{Platform} (n : nat) :
  exists w,
    task1_handler n initial_world = Ok tt w /\
    Forall is_int16 (temperature_readings w) /\
    Forall (Forall is_int16) (reports (trace w)) /\
    (Forall is_int16 (samples_read (trace w)) ->
       concat (reports (trace w)) = take (10 * (n / 10)) (samples_read (trace w))).
Proof.
  destruct (ring_after n) as (w & Hrun & Hinv & Hrange & _).
  destruct (sampler_inv_div_mod _ _ Hinv) as (_ & _ & Hcat & _).
  exists w. split; [exact Hrun |]. split; [exact Hrange |]. split.
  - apply Forall_concat_inv. rewrite Hcat. apply Forall_take.
    change (map int16 (samples_read (trace w))) with (int16 <$> samples_read (trace w)).
    apply Forall_fmap, Forall_forall. intros z _. apply int16_is_int16.
  - intros Hin. rewrite Hcat, (map_int16_in_range _ Hin). reflexivity.
Qed.

Lemma stored_samples_are_int16_witness :
  let P := sample_platform all_succeed in
  exists w,
    @task1_handler P 20 initial_world = Ok tt w /\
    Forall is_int16 (samples_read (trace w)) /\
    concat (reports (trace w)) = samples_read (trace w).
Proof.
  intros P.
  destruct (@stored_samples_are_int16 P 20) as (w & Hrun & _ & _ & Hraw).
  assert (Hw : w = world_of (@task1_handler P 20 initial_world))
    by (rewrite Hrun; reflexivity).
  assert (Hin : Forall is_int16 (samples_read (trace w))).
  { rewrite Hw. vm_compute samples_read.
    repeat (constructor; [unfold is_int16; lia |]). constructor. }
  exists w. split; [exact Hrun |]. split; [exact Hin |].
  rewrite (Hraw Hin). rewrite Hw. vm_compute. reflexivity.
Defined.

(** ** The two tasks side by side *)

Section Isolation.
Context `{Platform}.

Lemma log_readings_keeps k i w :
  let w' := world_of (log_readings k i w) in
  ble_temp_addr_type w' = ble_temp_addr_type w /\
  ble_hs_cfg_sync_cb w' = ble_hs_cfg_sync_cb w /\
  ble_hs_cfg_gatts_register_cb w' = ble_hs_cfg_gatts_register_cb w.
Proof.
  revert i w. induction k as [|k IH]; intros i w; simpl.
  - repeat split.
  - unfold mbind, M_bind, load_reading.
    destruct ((0 <=? i) && (i <? TEMPERATURE_READINGS_BUFFER_SIZE));
      [| repeat split].
    destruct (temperature_readings w !! Z.to_nat i) as [v|]; [| repeat split].
    unfold LOG, emit.
    apply (IH (uint8 (i + 1)) (with_trace (trace w ++ [Log INFO "%x" [ArgInt v]]) w)).
Qed.

(** From any world, an iteration of the sampler leaves the address type
    and the host configuration as they were. *)
Lemma task1_iteration_keeps w :
  let w' := world_of (task1_iteration w) in
  ble_temp_addr_type w' = ble_temp_addr_type w /\
  ble_hs_cfg_sync_cb w' = ble_hs_cfg_sync_cb w /\
  ble_hs_cfg_gatts_register_cb w' = ble_hs_cfg_gatts_register_cb w.
Proof.
  unfold task1_iteration, mbind, M_bind, call, get_index, store_reading, set_index,
    mret, M_ret.
  cbn [trace with_trace with_index with_readings temperature_readings
         temperature_readings_index].
  destruct ((0 <=? temperature_readings_index w)
            && (temperature_readings_index w <? TEMPERATURE_READINGS_BUFFER_SIZE));
    [| repeat split].
  cbn [trace with_trace with_index with_readings temperature_readings
         temperature_readings_index].
  destruct (TEMPERATURE_READINGS_BUFFER_SIZE
            =? uint8 (temperature_readings_index w + 1)); [| repeat split].
  unfold LOG, emit.
  match goal with
  | |- context [log_readings ?k ?i ?w0] =>
      pose proof (log_readings_keeps k i w0) as Hk;
      destruct (log_readings k i w0) as [[] w5 | f w5]
  end; exact Hk.
Qed.

End Isolation.

(** X11.  The two tasks do not touch each other's state.  A sync callback
    or a GAP event, whatever its outcome, leaves the sampler's array and
    index as they were and adds nothing to the trace that reads as a
    sample, a delay request or a report.  An iteration of the sampler,
    whatever its outcome, leaves the link, the count of advertise
    operations, the stored address type and the host configuration as
    they were. *)
Theorem sampler_and_advertising_are_isolated `{Platform} (t : turn) (w : World) :
  let w' := world_of (run_turn t w) in
  (t <> Tick ->
     temperature_readings w' = temperature_readings w /\
     temperature_readings_index w' = temperature_readings_index w /\
     samples_read (trace w') = samples_read (trace w) /\
     delays (trace w') = delays (trace w) /\
     reports (trace w') = reports (trace w)) /\
  (t = Tick ->
     link w' = link w /\
     advertise_calls (trace w') = advertise_calls (trace w) /\
     ble_temp_addr_type w' = ble_temp_addr_type w /\
     ble_hs_cfg_sync_cb w' = ble_hs_cfg_sync_cb w /\
     ble_hs_cfg_gatts_register_cb w' = ble_hs_cfg_gatts_register_cb w).
Proof.
  cbv zeta. split.
  - intros Ht. exact (sampler_frame t w Ht).
  - intros ->. cbn [run_turn].
    split; [apply link_after_tick |]. split.
    + destruct (task1_iteration_quiet w) as [ext [Hext Hq]].
      rewrite Hext, advertise_calls_app, (quiet_advertise_calls _ Hq). lia.
    + apply task1_iteration_keeps.
Qed.

Lemma sampler_and_advertising_are_isolated_witness :
  let P := sample_platform all_succeed in
  let w := world_of (@run_turns P [Sync; Tick; Tick] initial_world) in
  Gap (BLE_GAP_EVENT_DISCONNECT 19) <> Tick /\
  temperature_readings
    (world_of (@run_turn P (Gap (BLE_GAP_EVENT_DISCONNECT 19)) w))
    = temperature_readings w /\
  link (world_of (@run_turn P Tick w)) = Advertising.
Proof.
  intros P w.
  assert (Hne : Gap (BLE_GAP_EVENT_DISCONNECT 19) <> Tick) by discriminate.
  split; [exact Hne |].
  destruct (@sampler_and_advertising_are_isolated P
              (Gap (BLE_GAP_EVENT_DISCONNECT 19)) w) as [Hgap _].
  destruct (@sampler_and_advertising_are_isolated P Tick w) as [_ Htick].
  destruct (Hgap Hne) as [Hr _]. destruct (Htick eq_refl) as [Hl _].
  split; [exact Hr |]. rewrite Hl. reflexivity.
Defined.

(** X12.  However the iterations of the sampler are interleaved with sync
    callbacks and GAP events, the sampler is where its own iterations have
    brought it: with [k] iterations among the turns, the index is
    [k mod 10], the array has its ten slots, [k] samples have been read,
    [k / 10] reports made, which end to end are the first [10 * (k / 10)]
    samples, and [k] delays of the fixed period requested; and the next
    iteration stays inside the array. *)
Theorem sampler_keeps_pace_along_runs `{Platform} (ts : list turn) (w : World) :
  run initial_world ts w ->
  temperature_readings_index w = Z.of_nat (ticks ts mod 10) /\
  length (temperature_readings w) = 10%nat /\
  length (samples_read (trace w)) = ticks ts /\
  length (reports (trace w)) = (ticks ts / 10)%nat /\
  concat (reports (trace w))
    = take (10 * (ticks ts / 10)) (map int16 (samples_read (trace w))) /\
  delays (trace w) = replicate (ticks ts) (os_time_ms_to_ticks TEMPERATURE_PERIOD) /\
  exists w', task1_iteration w = Ok tt w'.
Proof.
  intros Hrun.
  destruct (sampler_inv_along_runs ts w Hrun) as [Hinv _].
  destruct (sampler_inv_div_mod _ _ Hinv) as (Hidx & Hq & Hcat & _).
  pose proof Hinv as (q & r & _ & _ & Hok & _ & Hlen & _ & _ & _ & _ & Hdel).
  split; [exact Hidx |]. split; [apply Hok |]. split; [exact Hlen |].
  split; [exact Hq |]. split; [exact Hcat |]. split; [exact Hdel |].
  pose proof (task1_iteration_run w Hok) as Hit. cbv zeta in Hit.
  eexists. exact Hit.
Qed.

Lemma sampler_keeps_pace_along_runs_witness :
  let P := sample_platform all_succeed in
  let ts := [Sync; Tick; Gap (BLE_GAP_EVENT_CONNECT 0); Tick] in
  exists w,
    @run P initial_world ts w /\
    temperature_readings_index w = 2 /\
    link w = Connected.
Proof.
  intros P ts.
  set (w1 := world_of (@run_turn P Sync initial_world)).
  set (w2 := world_of (@run_turn P Tick w1)).
  set (w3 := world_of (@run_turn P (Gap (BLE_GAP_EVENT_CONNECT 0)) w2)).
  set (w4 := world_of (@run_turn P Tick w3)).
  assert (Hrun : @run P initial_world ts w4).
  { change ts with (((([] ++ [Sync]) ++ [Tick])
                      ++ [Gap (BLE_GAP_EVENT_CONNECT 0)]) ++ [Tick]).
    eapply run_snoc; [eapply run_snoc; [eapply run_snoc;
      [eapply run_snoc; [apply run_nil |] |] |] |].
    - apply step_sync. vm_compute. reflexivity.
    - apply step_tick. vm_compute. reflexivity.
    - apply step_gap; vm_compute; reflexivity.
    - apply step_tick. vm_compute. reflexivity. }
  destruct (@sampler_keeps_pace_along_runs P ts w4 Hrun) as (Hidx & _).
  exists w4. split; [exact Hrun |].
  split; [exact Hidx | vm_compute; reflexivity].
Defined.

(** ** The advertise operation, whatever the host answers *)

Section AdvertiseOutcomes.
Context `{Platform}.

Lemma error_lines_app t1 t2 :
  error_lines (t1 ++ t2) = (error_lines t1 + error_lines t2)%nat.
Proof. induction t1 as [|a t1 IH]; simpl; [reflexivity | rewrite IH; lia]. Qed.

Lemma error_lines_advertise t a :
  error_lines (advertise_actions t a) = if stack_accepts t a then 0%nat else 1%nat.
Proof.
  unfold advertise_actions, stack_accepts.
  destruct (set_fields_rc t =? 0); simpl; [| reflexivity].
  destruct (adv_start_rc t a =? 0); reflexivity.
Qed.

Lemma advertise_actions_accepted t a :
  stack_accepts t a = true ->
  advertise_actions t a = [Ext set_fields_call 0; Ext (adv_start_call a) 0].
Proof.
  unfold advertise_actions, stack_accepts. intros Hacc.
  apply andb_prop in Hacc as [Hf Hs]. rewrite Hf, Hs. simpl.
  apply Z.eqb_eq in Hf, Hs. rewrite Hf, Hs. reflexivity.
Qed.

End AdvertiseOutcomes.

(** X4.  The advertise operation never stops the program and changes
    nothing but the trace.  It writes exactly one ERROR line when the host
    rejects one of its calls and none otherwise; when the host accepts
    both, the operation consists of the two calls alone and the link is
    Advertising afterwards. *)
Theorem advertise_reports_each_failure_once `{Platform} (w : World) :
  let a := ble_temp_addr_type w in
  exists ext,
    ble_temp_advertise w = Ok tt (with_trace (trace w ++ ext) w) /\
    error_lines ext = (if stack_accepts (trace w) a then 0%nat else 1%nat) /\
    (stack_accepts (trace w) a = true ->
       ext = [Ext set_fields_call 0; Ext (adv_start_call a) 0] /\
       link (with_trace (trace w ++ ext) w) = Advertising).
Proof.
  cbv zeta. exists (advertise_actions (trace w) (ble_temp_addr_type w)).
  split; [apply ble_temp_advertise_run |].
  split; [apply error_lines_advertise |].
  intros Hacc. split; [apply advertise_actions_accepted, Hacc |].
  unfold link. cbn [trace with_trace].
  rewrite link_of_app, link_from_advertise, Hacc. reflexivity.
Qed.

Lemma advertise_reports_each_failure_once_witness :
  let P := sample_platform all_succeed in
  stack_accepts (H := P) (trace initial_world) (ble_temp_addr_type initial_world)
    = true /\
  exists w',
    @ble_temp_advertise P initial_world = Ok tt w' /\
    error_lines (trace w') = 0%nat /\
    link w' = Advertising.
Proof.
  intros P.
  assert (Hacc : stack_accepts (H := P) (trace initial_world)
                   (ble_temp_addr_type initial_world) = true) by reflexivity.
  split; [exact Hacc |].
  destruct (@advertise_reports_each_failure_once P initial_world)
    as (ext & Hrun & Herr & Hok).
  destruct (Hok Hacc) as [_ Hl].
  eexists. split; [exact Hrun |]. split; [| exact Hl].
  cbn [trace with_trace initial_world app]. rewrite Herr, Hacc. reflexivity.
Defined.

(** X3.  When identity inference succeeds, [on_sync] stores the inferred
    address type, runs the advertise operation with it, and then logs
    "adv started" and returns, whether or not the host accepted the
    advertising: the line is written even when the link is left as it
    was. *)
Theorem sync_logs_started_regardless `{Platform} (w : World) :
  infer_rc (trace w) = 0 ->
  let a := inferred_addr_type (trace w) in
  let h := trace w ++ [Ext (ble_hs_id_infer_auto 0) 0] in
  exists w',
    on_sync w = Ok tt w' /\
    ble_temp_addr_type w' = a /\
    trace w' = h ++ advertise_actions h a ++ [Log INFO "adv started\n" []] /\
    list.last (trace w') = Some (Log INFO "adv started\n" []) /\
    (set_fields_rc h = 0 -> In (Ext (adv_start_call a) (adv_start_rc h a)) (trace w')) /\
    link w' = (if stack_accepts h a then Advertising else link w).
Proof.
  intros Hrc. cbv zeta.
  pose proof (on_sync_run w) as Hr. cbv zeta in Hr.
  rewrite Hrc in Hr. change (0 =? 0) with true in Hr. cbv iota in Hr.
  eexists. split; [exact Hr |].
  cbn [trace with_trace with_addr_type ble_temp_addr_type].
  split; [reflexivity |]. split; [reflexivity |].
  split; [rewrite !app_assoc; apply last_snoc |].
  split.
  - intros Hf. apply in_or_app. right. apply in_or_app. left.
    unfold advertise_actions. rewrite Hf. simpl. right. left. reflexivity.
  - unfold link. cbn [trace with_trace].
    rewrite link_of_app, link_from_app, link_from_advertise.
    destruct (stack_accepts _ _); [reflexivity |].
    rewrite link_of_app. reflexivity.
Qed.

Lemma sync_logs_started_regardless_witness :
  let P := sample_platform start_rejected in
  infer_rc (H := P) (trace initial_world) = 0 /\
  exists w',
    @on_sync P initial_world = Ok tt w' /\
    list.last (trace w') = Some (Log INFO "adv started\n" []) /\
    link w' = Idle.
Proof.
  intros P.
  assert (Hrc : infer_rc (H := P) (trace initial_world) = 0) by reflexivity.
  split; [exact Hrc |].
  destruct (@sync_logs_started_regardless P initial_world Hrc)
    as (w' & Hrun & _ & _ & Hlast & _ & Hlink).
  exists w'. split; [exact Hrun |]. split; [exact Hlast |].
  rewrite Hlink. reflexivity.
Defined.

(** ** The calls into the host along any sequence of turns *)

Section HostCalls.
Context `{Platform}.

Lemma coded_quiet l : forallb quiet l = true -> Forall advertises_as_coded l.
Proof.
  induction l as [|a l IH]; simpl; intros Hq; [constructor |].
  apply andb_prop in Hq as [Ha Hl]. constructor; [| apply IH, Hl].
  destruct a as [| c r |]; simpl; try exact I. destruct c; try exact I; discriminate.
Qed.

Lemma coded_advertise t a : Forall advertises_as_coded (advertise_actions t a).
Proof.
  unfold advertise_actions.
  constructor; [reflexivity |].
  destruct (set_fields_rc t =? 0); simpl.
  - constructor; [repeat split |].
    destruct (adv_start_rc t a =? 0); simpl; repeat constructor.
  - repeat constructor.
Qed.

Lemma follow_quiet l : forallb quiet l = true -> forall b, starts_follow_fields b l = true.
Proof.
  induction l as [|a l IH]; simpl; intros Hq b; [reflexivity |].
  apply andb_prop in Hq as [Ha Hl]. rewrite (IH Hl).
  destruct a as [| c r |]; try reflexivity.
  destruct c; try reflexivity; discriminate.
Qed.

Lemma follow_app b l1 l2 :
  starts_follow_fields b l1 = true ->
  (forall b', starts_follow_fields b' l2 = true) ->
  starts_follow_fields b (l1 ++ l2) = true.
Proof.
  revert b. induction l1 as [|a l1 IH]; simpl; intros b H1 H2; [apply H2 |].
  apply andb_prop in H1 as [Ha Hl]. rewrite Ha. simpl. apply IH; assumption.
Qed.

Lemma follow_advertise t a b : starts_follow_fields b (advertise_actions t a) = true.
Proof.
  unfold advertise_actions. simpl.
  destruct (set_fields_rc t =? 0) eqn:Ef; simpl; [| reflexivity].
  destruct (adv_start_rc t a =? 0); reflexivity.
Qed.

(** What a turn adds to the trace, whatever its outcome. *)
Lemma turn_extension t w :
  exists ext,
    trace (world_of (run_turn t w)) = trace w ++ ext /\
    Forall advertises_as_coded ext /\
    forall b, starts_follow_fields b ext = true.
Proof.
  destruct t as [| ev |].
  - cbn [run_turn]. pose proof (on_sync_run w) as Hr. cbv zeta in Hr. rewrite Hr.
    destruct (infer_rc (trace w) =? 0);
      cbn [world_of trace with_trace with_addr_type ble_temp_addr_type].
    + eexists. split; [rewrite <- app_assoc; reflexivity |]. split.
      * apply Forall_app. split; [repeat constructor |].
        apply Forall_app. split; [apply coded_advertise | repeat constructor].
      * intros b. apply follow_app; [reflexivity |]. intros b'.
        apply follow_app; [apply follow_advertise |]. intros b''. reflexivity.
    + eexists. split; [reflexivity |]. split; [repeat constructor |].
      intros b. reflexivity.
  - rewrite run_turn_gap. cbn [world_of]. rewrite gap_dispatch_run.
    cbn [world_of trace with_trace].
    eexists. split; [reflexivity |].
    change (Deliver ev :: ?l) with ([Deliver ev] ++ l). split.
    + apply Forall_app. split; [repeat constructor |].
      apply Forall_app. split.
      * apply coded_quiet. destruct ev; reflexivity.
      * destruct (resumes_advertising ev); [apply coded_advertise | constructor].
    + intros b. apply follow_app; [reflexivity |]. intros b'.
      apply follow_app; [apply follow_quiet; destruct ev; reflexivity |].
      intros b''. destruct (resumes_advertising ev);
        [apply follow_advertise | reflexivity].
  - cbn [run_turn]. destruct (task1_iteration_quiet w) as [ext [Hext Hq]].
    exists ext. split; [exact Hext |]. split; [apply coded_quiet, Hq |].
    apply follow_quiet, Hq.
Qed.

Lemma world_of_run_turns_cons t ts w :
  world_of (run_turns (t :: ts) w) =
  match run_turn t w with
  | Ok _ w1 => world_of (run_turns ts w1)
  | Halt _ w1 => w1
  end.
Proof.
  simpl. unfold mbind, M_bind. destruct (run_turn t w); reflexivity.
Qed.

(** A property of traces that every single turn preserves holds after any
    sequence of turns, also when a turn stops the program. *)
Lemma along_turns (Q : list Action -> Prop) :
  (forall t w, Q (trace w) -> Q (trace (world_of (run_turn t w)))) ->
  forall ts w, Q (trace w) -> Q (trace (world_of (run_turns ts w))).
Proof.
  intros Hturn ts. induction ts as [|t ts IH]; intros w HQ; [exact HQ |].
  rewrite world_of_run_turns_cons.
  pose proof (Hturn t w HQ) as Ht.
  destruct (run_turn t w) as [[] w1 | f w1]; [apply IH |]; exact Ht.
Qed.

End HostCalls.

(** X5.  Advertising is always requested in the same way.  After any
    sequence of sync callbacks, GAP events and sampler iterations, every
    field setting in the trace carries the one payload of
    [ble_temp_advertise], and every start of advertising is undirected (no
    peer address), without time limit, with [ble_temp_gap_event] as the
    callback and a null callback argument, and with parameters whose
    connectable mode is undirected, whose discoverable mode is general and
    whose other members are all zero. *)
Theorem advertising_requests_never_vary `{Platform} (ts : list turn) (w : World) :
  Forall advertises_as_coded (trace w) ->
  Forall advertises_as_coded (trace (world_of (run_turns ts w))) /\
  advertisement_params "conn_mode" = CInt BLE_GAP_CONN_MODE_UND /\
  advertisement_params "disc_mode" = CInt BLE_GAP_DISC_MODE_GEN /\
  (forall m : string, m <> "conn_mode" -> m <> "disc_mode" ->
     advertisement_params m = CInt 0).
Proof.
  intros Hw. split.
  - revert ts w Hw. apply along_turns. intros t w Hw.
    destruct (turn_extension t w) as (ext & Hext & Hcoded & _).
    rewrite Hext. apply Forall_app. split; assumption.
  - split; [reflexivity |]. split; [reflexivity |].
    intros m H1 H2. unfold advertisement_params, assign, fn_insert, memset0.
    destruct (decide ("disc_mode" = m)) as [E | _]; [congruence |].
    destruct (decide ("conn_mode" = m)) as [E | _]; [congruence |].
    reflexivity.
Qed.

Lemma advertising_requests_never_vary_witness :
  let P := sample_platform all_succeed in
  let ts := [Sync; Gap (BLE_GAP_EVENT_CONNECT 0); Tick;
             Gap (BLE_GAP_EVENT_DISCONNECT 19)] in
  Forall (@advertises_as_coded P) (trace initial_world) /\
  Forall (@advertises_as_coded P) (trace (world_of (@run_turns P ts initial_world))) /\
  advertise_calls (trace (world_of (@run_turns P ts initial_world))) = 2%nat /\
  @advertisement_params P "own_addr_type" = CInt 0.
Proof.
  intros P ts.
  assert (H0 : Forall (@advertises_as_coded P) (trace initial_world)) by constructor.
  split; [exact H0 |].
  destruct (@advertising_requests_never_vary P ts initial_world H0)
    as (Hall & _ & _ & Hzero).
  split; [exact Hall |]. split; [vm_compute; reflexivity |].
  apply Hzero; discriminate.
Defined.

(** X6.  Advertising is never started on fields the host has not accepted:
    after any sequence of turns, every [ble_gap_adv_start] in the trace
    comes immediately after a [ble_gap_adv_set_fields] that returned 0. *)
Theorem start_only_after_accepted_fields `{Platform} (ts : list turn) (w : World) :
  starts_follow_fields false (trace w) = true ->
  starts_follow_fields false (trace (world_of (run_turns ts w))) = true.
Proof.
  revert ts w.
  apply (along_turns (fun t => starts_follow_fields false t = true)).
  intros t w Hw.
  destruct (turn_extension t w) as (ext & Hext & _ & Hfollow).
  rewrite Hext. apply follow_app; assumption.
Qed.

Lemma start_only_after_accepted_fields_witness :
  let P := sample_platform fields_only_once in
  let ts := [Sync; Gap (BLE_GAP_EVENT_CONNECT 2); Tick; Sync] in
  starts_follow_fields false (trace initial_world) = true /\
  starts_follow_fields false (trace (world_of (@run_turns P ts initial_world)))
    = true /\
  advertise_calls (trace (world_of (@run_turns P ts initial_world))) = 3%nat.
Proof.
  intros P ts.
  assert (H0 : starts_follow_fields false (trace initial_world) = true)
    by reflexivity.
  split; [exact H0 |]. split.
  - exact (@start_only_after_accepted_fields P ts initial_world H0).
  - vm_compute. reflexivity.
Defined.

(** ** The link along runs *)

Section LinkAlongRuns.
Context `{Platform}.

Lemma accepts_always t a : host_accepts_advertising -> stack_accepts t a = true.
Proof.
  intros [Hf Hs]. unfold stack_accepts, set_fields_rc, adv_start_rc,
    set_fields_call, adv_start_call.
  rewrite Hf, Hs. reflexivity.
Qed.

Lemma step_keeps_reachable w t w' :
  host_accepts_advertising -> step w t w' ->
  (t = Sync -> link w' = Advertising) /\
  (link w <> Idle -> link w' <> Idle).
Proof.
  intros Hacc Hstep.
  inversion Hstep as [w1 w2 Hr | w1 ev w2 Hr | w1 w2 Hr]; subst.
  - cbn [run_turn] in Hr. destruct (link_after_sync _ _ Hr) as [h Hl].
    rewrite (accepts_always _ _ Hacc) in Hl.
    split; [intros _; exact Hl | intros _; rewrite Hl; discriminate].
  - split; [discriminate |]. intros Hidle.
    rewrite run_turn_gap in Hr. apply Ok_world in Hr. subst w'.
    rewrite link_after_gap. cbv zeta.
    rewrite (accepts_always _ _ Hacc).
    destruct ev as [status | reason | | h v | ty]; simpl;
      try discriminate; try exact Hidle.
    destruct (status =? 0); discriminate.
  - split; [discriminate |]. intros Hn.
    cbn [run_turn] in Hr.
    pose proof (link_after_tick w) as Hl. rewrite Hr in Hl. cbn [world_of] in Hl.
    rewrite Hl. exact Hn.
Qed.


End LinkAlongRuns.

(** X7.  With a host that accepts every advertise call, the device is
    never left out of reach: the sync callback puts the link in
    Advertising, and after any run that follows, whatever events and
    sampler iterations it is made of, the link is Advertising or
    Connected. *)
Theorem device_stays_reachable_when_host_accepts `{Platform}
    (w0 w w' : World) (ts : list turn) :
  host_accepts_advertising ->
  step w0 Sync w -> run w ts w' ->
  link w = Advertising /\ (link w' = Advertising \/ link w' = Connected).
Proof.
  intros Hacc Hsync Hrun.
  destruct (step_keeps_reachable _ _ _ Hacc Hsync) as [Hadv _].
  specialize (Hadv eq_refl). split; [exact Hadv |].
  assert (Hn : link w' <> Idle).
  { induction Hrun as [w | w ts w1 t w2 Hrun IH Hstep].
    - rewrite Hadv. discriminate.
    - destruct (step_keeps_reachable _ _ _ Hacc Hstep) as [_ Hkeep].
      apply Hkeep, IH; assumption. }
  destruct (link w'); [contradiction | left | right]; reflexivity.
Qed.

Lemma device_stays_reachable_when_host_accepts_witness :
  let P := sample_platform all_succeed in
  let ts := [Gap (BLE_GAP_EVENT_CONNECT 0); Tick;
             Gap (BLE_GAP_EVENT_DISCONNECT 19)] in
  @host_accepts_advertising P /\
  exists w w',
    @step P initial_world Sync w /\ @run P w ts w' /\ link w' = Advertising.
Proof.
  intros P ts.
  assert (Hacc : @host_accepts_advertising P) by (split; reflexivity).
  split; [exact Hacc |].
  set (w := world_of (@run_turn P Sync initial_world)).
  set (w1 := world_of (@run_turn P (Gap (BLE_GAP_EVENT_CONNECT 0)) w)).
  set (w2 := world_of (@run_turn P Tick w1)).
  set (w3 := world_of (@run_turn P (Gap (BLE_GAP_EVENT_DISCONNECT 19)) w2)).
  assert (Hs : @step P initial_world Sync w)
    by (apply step_sync; vm_compute; reflexivity).
  assert (Hrun : @run P w ts w3).
  { change ts with ((([] ++ [Gap (BLE_GAP_EVENT_CONNECT 0)]) ++ [Tick])
                      ++ [Gap (BLE_GAP_EVENT_DISCONNECT 19)]).
    eapply run_snoc; [eapply run_snoc; [eapply run_snoc; [apply run_nil |] |] |].
    - apply step_gap; vm_compute; reflexivity.
    - apply step_tick. vm_compute. reflexivity.
    - apply step_gap; vm_compute; reflexivity. }
  destruct (@device_stays_reachable_when_host_accepts P initial_world w w3 ts
              Hacc Hs Hrun) as [_ Hreach].
  exists w, w3. split; [exact Hs |]. split; [exact Hrun |].
  vm_compute. reflexivity.
Defined.



(** ** Start-up, whatever the collaborators answer *)

Section StartupOutcomes.
Context `{Platform}.

Lemma task_inits_app t1 t2 :
  task_inits (t1 ++ t2) = (task_inits t1 + task_inits t2)%nat.
Proof. induction t1 as [|a t1 IH]; simpl; [reflexivity | rewrite IH; lia]. Qed.

Lemma init_app_tasks_run w :
  init_app_tasks w =
  Ok 0 (with_trace
          (trace w ++ [Ext task_init_call (ext_ret (trace w) task_init_call)]) w).
Proof. reflexivity. Qed.

(** What start-up adds to the trace, in each of its three outcomes. *)
Lemma startup_extension w :
  let both := (gatt_init_rc (trace w) =? 0) && (name_set_rc (trace w) =? 0) in
  exists ext,
    world_of (main_startup w)
      = with_trace (trace w ++ ext)
          (with_cfg (CFun fn_on_sync) (CFun fn_gatt_svr_register_cb) w) /\
    forallb quiet ext = true /\
    forallb not_sampler ext = true /\
    task_inits ext = (if both then 1%nat else 0%nat) /\
    (both = true ->
       exists pre r,
         ext = pre ++ [Ext (ble_svc_gap_device_name_set device_name) 0;
                       Ext task_init_call r]).
Proof.
  cbv zeta. rewrite main_startup_run.
  unfold before_name_set, before_gatt_init.
  destruct (gatt_init_rc (trace w) =? 0) eqn:Eg;
    [destruct (name_set_rc (trace w) =? 0) eqn:En |];
    cbv zeta; cbn [world_of andb]; rewrite <- ?app_assoc; cbn [app].
  - eexists. split; [reflexivity |].
    split; [reflexivity |]. split; [reflexivity |]. split; [reflexivity |].
    intros _. apply Z.eqb_eq in En. rewrite En.
    eexists [_; _; _; _; _]. eexists. reflexivity.
  - eexists. split; [reflexivity |].
    split; [reflexivity |]. split; [reflexivity |]. split; [reflexivity |].
    discriminate.
  - eexists. split; [reflexivity |].
    split; [reflexivity |]. split; [reflexivity |]. split; [reflexivity |].
    discriminate.
Qed.

End StartupOutcomes.

(** X1.  [init_app_tasks] returns 0 whatever [os_task_init] returned, and
    [main] does not look at either result.  Start-up therefore completes
    exactly when the attribute registry's initialisation and the setting
    of the device name both returned 0; it then has asked for the sampler
    task once, as its last action, right after registering with the GAP
    service the very name that the advertisement carries.  In the two
    failing outcomes no task is asked for. *)
Theorem sampler_task_created_iff_startup_succeeds `{Platform} (w : World) :
  let both := (gatt_init_rc (trace w) =? 0) && (name_set_rc (trace w) =? 0) in
  let w' := world_of (main_startup w) in
  (forall w0, exists w1,
     init_app_tasks w0 = Ok 0 w1 /\
     trace w1 = trace w0 ++ [Ext task_init_call (ext_ret (trace w0) task_init_call)]) /\
  task_inits (trace w')
    = (task_inits (trace w) + if both then 1 else 0)%nat /\
  (both = true ->
     main_startup w = Ok tt w' /\
     advertisement_fields "name" = CStr device_name /\
     exists pre r,
       trace w' = trace w ++ pre
                    ++ [Ext (ble_svc_gap_device_name_set device_name) 0;
                        Ext task_init_call r]) /\
  (both = false -> exists w2, main_startup w = Halt AssertFailed w2).
Proof.
  cbv zeta. split.
  { intros w0. eexists. split; [apply init_app_tasks_run | reflexivity]. }
  destruct (startup_extension w) as (ext & Hw' & _ & _ & Hinits & Hlast).
  cbv zeta in Hinits, Hlast. split.
  { rewrite Hw'. cbn [trace with_trace]. rewrite task_inits_app, Hinits.
    reflexivity. }
  split.
  - intros Hboth. destruct (Hlast Hboth) as (pre & r & Hext).
    split.
    + pose proof (main_startup_run w) as Hr.
      apply andb_prop in Hboth as [Hg Hn]. rewrite Hg, Hn in Hr.
      rewrite Hr. reflexivity.
    + split; [reflexivity |]. exists pre, r.
      rewrite Hw'. cbn [trace with_trace]. rewrite Hext. reflexivity.
  - intros Hboth. pose proof (main_startup_run w) as Hr.
    destruct (gatt_init_rc (trace w) =? 0);
      [destruct (name_set_rc (trace w) =? 0); [discriminate |] |];
      eexists; exact Hr.
Qed.

Lemma sampler_task_created_iff_startup_succeeds_witness :
  (exists w', @main_startup (sample_platform all_succeed) initial_world = Ok tt w' /\
              task_inits (trace w') = 1%nat) /\
  (exists w2, @main_startup (sample_platform name_set_fails) initial_world
              = Halt AssertFailed w2 /\
              task_inits (trace w2) = 0%nat).
Proof.
  split.
  - destruct (@sampler_task_created_iff_startup_succeeds
                (sample_platform all_succeed) initial_world)
      as (_ & Hinits & Hok & _).
    destruct (Hok eq_refl) as (Hrun & _).
    eexists. split; [exact Hrun |]. rewrite Hinits. reflexivity.
  - destruct (@sampler_task_created_iff_startup_succeeds
                (sample_platform name_set_fails) initial_world)
      as (_ & Hinits & _ & Hfail).
    destruct (Hfail eq_refl) as (w2 & Hrun).
    exists w2. split; [exact Hrun |].
    assert (Hw2 : w2 = world_of (@main_startup (sample_platform name_set_fails)
                                   initial_world))
      by (rewrite Hrun; reflexivity).
    rewrite Hw2, Hinits. reflexivity.
Defined.

(** X2.  Start-up only configures.  In each of its outcomes, also when an
    assertion stops it, the host configuration names [on_sync] as the sync
    callback and [gatt_svr_register_cb] as the registration callback;
    nothing else of the program state changes; the link is not moved, the
    advertise operation is not entered, and no sample is read, no delay
    requested and no report made. *)
Theorem startup_only_configures `{Platform} (w : World) :
  let w' := world_of (main_startup w) in
  ble_hs_cfg_sync_cb w' = CFun fn_on_sync /\
  ble_hs_cfg_gatts_register_cb w' = CFun fn_gatt_svr_register_cb /\
  ble_temp_addr_type w' = ble_temp_addr_type w /\
  temperature_readings w' = temperature_readings w /\
  temperature_readings_index w' = temperature_readings_index w /\
  link w' = link w /\
  advertise_calls (trace w') = advertise_calls (trace w) /\
  samples_read (trace w') = samples_read (trace w) /\
  delays (trace w') = delays (trace w) /\
  reports (trace w') = reports (trace w).
Proof.
  cbv zeta.
  destruct (startup_extension w) as (ext & Hw' & Hq & Hns & _).
  rewrite Hw'.
  cbn [trace with_trace with_cfg ble_hs_cfg_sync_cb ble_hs_cfg_gatts_register_cb
         ble_temp_addr_type temperature_readings temperature_readings_index].
  repeat (split; [reflexivity |]).
  split; [unfold link; cbn [trace with_trace]; rewrite link_of_app;
          apply quiet_link_from, Hq |].
  split; [rewrite advertise_calls_app, (quiet_advertise_calls _ Hq); lia |].
  apply not_sampler_frame, Hns.
Qed.

(** ** The address type and the error log along turns *)

Section AlongTurns.
Context `{Platform}.

Lemma sampler_action_hex_lines vs : forallb sampler_action (map hex_line vs) = true.
Proof. induction vs; simpl; auto. Qed.

(** From any world, an iteration adds sensor readings, delay requests and
    INFO lines only. *)
Lemma task1_iteration_actions w :
  exists ext, trace (world_of (task1_iteration w)) = trace w ++ ext /\
              forallb sampler_action ext = true.
Proof.
  unfold task1_iteration, mbind, M_bind, call, get_index, store_reading, set_index,
    mret, M_ret.
  cbn [trace with_trace with_index with_readings temperature_readings
         temperature_readings_index].
  set (s := ext_ret (trace w) get_temp_measurement).
  destruct ((0 <=? temperature_readings_index w)
            && (temperature_readings_index w <? TEMPERATURE_READINGS_BUFFER_SIZE)).
  2:{ exists [Ext get_temp_measurement s]. split; reflexivity. }
  cbn [trace with_trace with_index with_readings temperature_readings
         temperature_readings_index].
  destruct (TEMPERATURE_READINGS_BUFFER_SIZE
            =? uint8 (temperature_readings_index w + 1)).
  2:{ eexists [Ext get_temp_measurement s; Ext _ _]. simpl.
      rewrite <- app_assoc. split; reflexivity. }
  unfold LOG, emit.
  cbn [trace with_trace with_index with_readings temperature_readings
         temperature_readings_index].
  match goal with
  | |- context [log_readings ?k ?i ?w0] =>
      destruct (log_readings_any k i w0) as [vs Hvs];
      destruct (log_readings k i w0) as [[] w5 | f w5]
  end; simpl in Hvs |- *.
  - eexists (Ext get_temp_measurement s :: buffer_full :: map hex_line vs ++ [Ext _ _]).
    rewrite Hvs. rewrite <- !app_assoc. simpl. split; [reflexivity |].
    rewrite forallb_app, sampler_action_hex_lines. reflexivity.
  - exists (Ext get_temp_measurement s :: buffer_full :: map hex_line vs).
    rewrite Hvs. rewrite <- !app_assoc. simpl. split; [reflexivity |].
    apply sampler_action_hex_lines.
Qed.

Lemma sampler_action_facts ext a :
  forallb sampler_action ext = true ->
  error_lines ext = 0%nat /\ advertise_calls ext = 0%nat /\
  Forall (starts_with_addr_type a) ext.
Proof.
  induction ext as [|x ext IH]; simpl; intros Hs;
    [repeat split; constructor |].
  apply andb_prop in Hs as [Hx Hext]. destruct (IH Hext) as (E & C & F).
  rewrite E, C.
  destruct x as [lvl fmt args | c r | ev]; try discriminate.
  - destruct lvl; [| discriminate]. repeat split. constructor; [exact I | exact F].
  - destruct c; try discriminate; repeat split; (constructor; [exact I | exact F]).
Qed.

Lemma advertise_facts t a :
  (error_lines (advertise_actions t a) <= advertise_calls (advertise_actions t a))%nat /\
  Forall (starts_with_addr_type a) (advertise_actions t a).
Proof.
  rewrite error_lines_advertise, advertise_calls_advertise.
  split; [destruct (stack_accepts t a); lia |].
  unfold advertise_actions. constructor; [exact I |].
  destruct (set_fields_rc t =? 0); simpl; [| repeat constructor].
  constructor; [reflexivity |].
  destruct (adv_start_rc t a =? 0); simpl; repeat constructor.
Qed.

Lemma event_log_facts ev a :
  error_lines (event_log ev) = 0%nat /\
  Forall (starts_with_addr_type a) (event_log ev).
Proof. destruct ev; simpl; repeat constructor. Qed.

(** What a turn adds to the trace, whatever its outcome: no more ERROR
    lines than advertise operations; and when the turn is not a sync, the
    address type stays and every start of advertising uses it. *)
Lemma turn_accounts t w :
  let w' := world_of (run_turn t w) in
  exists ext,
    trace w' = trace w ++ ext /\
    (error_lines ext <= advertise_calls ext)%nat /\
    (is_sync t = false ->
       ble_temp_addr_type w' = ble_temp_addr_type w /\
       Forall (starts_with_addr_type (ble_temp_addr_type w)) ext).
Proof.
  cbv zeta. destruct t as [| ev |].
  - cbn [run_turn]. pose proof (on_sync_run w) as Hr. cbv zeta in Hr. rewrite Hr.
    destruct (infer_rc (trace w) =? 0);
      cbn [world_of trace with_trace with_addr_type ble_temp_addr_type].
    + eexists. split; [rewrite <- app_assoc; reflexivity |].
      split; [| discriminate].
      change (Ext ?c ?r :: ?l) with ([Ext c r] ++ l).
      rewrite !error_lines_app, !advertise_calls_app.
      destruct (advertise_facts
                  (trace w ++ [Ext (ble_hs_id_infer_auto 0) (infer_rc (trace w))])
                  (inferred_addr_type (trace w))) as [Hle _].
      set (adv := advertise_actions _ _) in *. clearbody adv.
      simpl. lia.
    + eexists. split; [reflexivity |]. split; [simpl; lia | discriminate].
  - rewrite run_turn_gap. cbn [world_of]. rewrite gap_dispatch_run.
    cbn [world_of trace with_trace ble_temp_addr_type].
    eexists. split; [reflexivity |].
    change (Deliver ev :: ?l) with ([Deliver ev] ++ l).
    destruct (event_log_facts ev (ble_temp_addr_type w)) as [Eev Fev].
    destruct (advertise_facts (trace w ++ [Deliver ev] ++ event_log ev)
                (ble_temp_addr_type w)) as [Hle Fadv].
    split.
    + rewrite !error_lines_app, !advertise_calls_app, Eev.
      rewrite advertise_calls_event_log.
      set (adv := advertise_actions _ _) in *. clearbody adv.
      destruct (resumes_advertising ev); simpl; lia.
    + intros _. split; [reflexivity |].
      apply Forall_app. split; [repeat constructor |].
      apply Forall_app. split; [exact Fev |].
      destruct (resumes_advertising ev); [exact Fadv | constructor].
  - cbn [run_turn]. destruct (task1_iteration_actions w) as [ext [Hext Hs]].
    destruct (sampler_action_facts ext (ble_temp_addr_type w) Hs) as (E & C & F).
    exists ext. split; [exact Hext |]. split; [lia |].
    intros _. split; [apply task1_iteration_keeps | exact F].
Qed.

End AlongTurns.

(** X13.  The address type resolved at sync is the one every later
    advertisement uses: over any sequence of GAP events and sampler
    iterations (no sync among them) the stored address type does not
    change, and every start of advertising made in those turns is given
    that value. *)
Theorem address_type_fixed_between_syncs `{Platform} (ts : list turn) (w : World) :
  existsb is_sync ts = false ->
  let w' := world_of (run_turns ts w) in
  ble_temp_addr_type w' = ble_temp_addr_type w /\
  exists ext,
    trace w' = trace w ++ ext /\
    Forall (starts_with_addr_type (ble_temp_addr_type w)) ext.
Proof.
  cbv zeta. revert w. induction ts as [|t ts IH]; intros w Hns.
  - split; [reflexivity |]. exists []. simpl. rewrite app_nil_r.
    split; [reflexivity | constructor].
  - simpl in Hns. apply orb_false_elim in Hns as [Ht Hts].
    rewrite world_of_run_turns_cons.
    destruct (turn_accounts t w) as (ext1 & Hext1 & _ & Hkeep). cbv zeta in Hext1, Hkeep.
    destruct (Hkeep Ht) as [Ha1 F1].
    destruct (run_turn t w) as [[] w1 | f w1]; cbn [world_of] in Hext1, Ha1.
    + destruct (IH w1 Hts) as (Ha2 & ext2 & Hext2 & F2).
      split; [rewrite Ha2; exact Ha1 |].
      exists (ext1 ++ ext2). split.
      * rewrite Hext2, Hext1, app_assoc. reflexivity.
      * apply Forall_app. split; [exact F1 |]. rewrite <- Ha1. exact F2.
    + split; [exact Ha1 |]. exists ext1. split; assumption.
Qed.

Lemma address_type_fixed_between_syncs_witness :
  let P := sample_platform all_succeed in
  let w := world_of (@on_sync P initial_world) in
  let ts := [Gap (BLE_GAP_EVENT_CONNECT 0); Tick;
             Gap (BLE_GAP_EVENT_DISCONNECT 19)] in
  existsb is_sync ts = false /\
  ble_temp_addr_type w = 1 /\
  ble_temp_addr_type (world_of (@run_turns P ts w)) = 1.
Proof.
  intros P w ts.
  assert (Hns : existsb is_sync ts = false) by reflexivity.
  split; [exact Hns |].
  destruct (@address_type_fixed_between_syncs P ts w Hns) as [Ha _].
  split; [reflexivity |]. rewrite Ha. reflexivity.
Defined.

Section ErrorLog.
Context `{Platform}.

Lemma errors_report_app owed t ext :
  errors_report_rejections owed t ->
  errors_report_rejections None ext ->
  errors_report_rejections owed (t ++ ext).
Proof.
  revert owed. induction t as [|a t IH]; intros owed Ht Hext.
  - simpl in Ht. subst owed. exact Hext.
  - destruct Ht as [Ha Ht]. split; [exact Ha | exact (IH _ Ht Hext)].
Qed.

(** Actions that are no ERROR line and call for none. *)
Lemma errors_report_plain l :
  Forall (fun a => is_error_line a = false /\ error_line_for a = None) l ->
  errors_report_rejections None l.
Proof.
  induction 1 as [|a l [Ha Hn] Hl IH]; [reflexivity |].
  split; [exact Ha |]. rewrite Hn. exact IH.
Qed.

Lemma errors_report_sampler ext :
  forallb sampler_action ext = true -> errors_report_rejections None ext.
Proof.
  intros Hs. apply errors_report_plain.
  induction ext as [|x ext IH]; [constructor |].
  simpl in Hs. apply andb_prop in Hs as [Hx Hext].
  constructor; [| exact (IH Hext)].
  destruct x as [lvl fmt args | c r | ev]; try discriminate.
  - destruct lvl; [split; reflexivity | discriminate].
  - destruct c; try discriminate; split; reflexivity.
Qed.

Lemma errors_report_event_log ev : errors_report_rejections None (event_log ev).
Proof. destruct ev; simpl; repeat split. Qed.

(** One advertise operation: each of its calls that the host rejects is
    followed by the ERROR line with the returned status, and it writes no
    other ERROR line. *)
Lemma errors_report_advertise t a :
  errors_report_rejections None (advertise_actions t a).
Proof.
  unfold advertise_actions. cbn [errors_report_rejections error_line_for].
  split; [reflexivity |].
  destruct (set_fields_rc t =? 0); cbn [negb errors_report_rejections error_line_for].
  - split; [reflexivity |].
    destruct (adv_start_rc t a =? 0);
      cbn [negb errors_report_rejections error_line_for adv_start_error];
      repeat split.
  - cbn [set_fields_error]. repeat split.
Qed.

(** The ERROR lines of such a trace are as many as its rejected calls. *)
Lemma error_lines_count owed t :
  (forall e, owed = Some e -> is_error_line e = true /\ error_line_for e = None) ->
  errors_report_rejections owed t ->
  error_lines t
  = ((match owed with Some _ => 1 | None => 0 end) + rejected_advertise_calls t)%nat.
Proof.
  revert owed. induction t as [|a t IH]; intros owed Howed Ht.
  - simpl in Ht. subst owed. reflexivity.
  - destruct Ht as [Ha Ht].
    assert (Hnext : forall e, error_line_for a = Some e ->
                      is_error_line e = true /\ error_line_for e = None).
    { intros e He. destruct a as [| c r |]; try discriminate.
      destruct c; try discriminate; simpl in He;
        destruct (r =? 0); try discriminate; injection He as <-; split; reflexivity. }
    specialize (IH _ Hnext Ht). cbn [error_lines rejected_advertise_calls].
    rewrite IH. destruct owed as [e |].
    + subst a. destruct (Howed e eq_refl) as [He1 He2]. rewrite He1, He2. lia.
    + rewrite Ha. lia.
Qed.

(** What a turn adds to the trace, whatever its outcome. *)
Lemma turn_reports_rejections t w :
  exists ext,
    trace (world_of (run_turn t w)) = trace w ++ ext /\
    errors_report_rejections None ext.
Proof.
  destruct t as [| ev |].
  - cbn [run_turn]. pose proof (on_sync_run w) as Hr. cbv zeta in Hr. rewrite Hr.
    destruct (infer_rc (trace w) =? 0);
      cbn [world_of trace with_trace with_addr_type ble_temp_addr_type].
    + eexists. split; [rewrite <- app_assoc; reflexivity |].
      change (Ext ?c ?r :: ?l) with ([Ext c r] ++ l).
      apply errors_report_app; [repeat split |].
      apply errors_report_app; [apply errors_report_advertise | repeat split].
    + eexists. split; [reflexivity | repeat split].
  - rewrite run_turn_gap. cbn [world_of]. rewrite gap_dispatch_run.
    cbn [world_of trace with_trace ble_temp_addr_type].
    eexists. split; [reflexivity |].
    change (Deliver ev :: ?l) with ([Deliver ev] ++ l).
    apply errors_report_app; [repeat split |].
    apply errors_report_app; [apply errors_report_event_log |].
    destruct (resumes_advertising ev);
      [apply errors_report_advertise | reflexivity].
  - cbn [run_turn]. destruct (task1_iteration_actions w) as [ext [Hext Hs]].
    exists ext. split; [exact Hext | exact (errors_report_sampler ext Hs)].
Qed.

End ErrorLog.

(** X14.  ERROR lines come from rejected advertise calls only, one for
    each.  Over any sequence of turns, whatever their outcome: every
    [ble_gap_adv_set_fields] and every [ble_gap_adv_start] that returned
    non-zero is followed at once by the ERROR line of [ble_temp_advertise]
    for that call, carrying the returned status, and the trace has no other
    ERROR line; so the ERROR lines are as many as the rejected advertise
    calls, and the turns add no more of them than they add advertise
    operations. *)
Theorem errors_report_rejected_advertise_calls `{Platform}
    (ts : list turn) (w : World) :
  errors_report_rejections None (trace w) ->
  let w' := world_of (run_turns ts w) in
  errors_report_rejections None (trace w') /\
  error_lines (trace w') = rejected_advertise_calls (trace w') /\
  (error_lines (trace w') + advertise_calls (trace w)
   <= error_lines (trace w) + advertise_calls (trace w'))%nat.
Proof.
  cbv zeta. intros H0.
  assert (Hall : errors_report_rejections None (trace (world_of (run_turns ts w)))).
  { revert w H0. induction ts as [|t ts IH]; intros w H0; [exact H0 |].
    rewrite world_of_run_turns_cons.
    destruct (turn_reports_rejections t w) as (ext & Hext & Hrep).
    assert (H1 : errors_report_rejections None (trace (world_of (run_turn t w))))
      by (rewrite Hext; apply errors_report_app; assumption).
    destruct (run_turn t w) as [[] w1 | f w1]; cbn [world_of] in H1 |- *.
    - apply IH. exact H1.
    - exact H1. }
  split; [exact Hall |]. split.
  { apply (error_lines_count None); [discriminate | exact Hall]. }
  clear H0 Hall. revert w. induction ts as [|t ts IH]; intros w; [simpl; lia |].
  rewrite world_of_run_turns_cons.
  destruct (turn_accounts t w) as (ext & Hext & Hle & _). cbv zeta in Hext.
  destruct (run_turn t w) as [[] w1 | f w1]; cbn [world_of] in Hext.
  - specialize (IH w1). rewrite Hext, error_lines_app, advertise_calls_app in IH. lia.
  - rewrite Hext, error_lines_app, advertise_calls_app. lia.
Qed.

Lemma errors_report_rejected_advertise_calls_witness :
  let P := sample_platform start_rejected in
  let ts := [Sync; Gap (BLE_GAP_EVENT_DISCONNECT 19); Tick] in
  errors_report_rejections None (trace initial_world) /\
  error_lines (trace (world_of (@run_turns P ts initial_world))) = 2%nat /\
  rejected_advertise_calls (trace (world_of (@run_turns P ts initial_world))) = 2%nat.
Proof.
  intros P ts.
  assert (H0 : errors_report_rejections None (trace initial_world)) by reflexivity.
  split; [exact H0 |].
  destruct (@errors_report_rejected_advertise_calls P ts initial_world H0)
    as [_ [Hcount _]].
  split; [| rewrite <- Hcount]; vm_compute; reflexivity.
Defined.
